(** * PyFlyt: the quadrotor control core and the multi-agent stepping loop

    A shallow embedding of [PyFlyt/core/drone.py] (class [Drone]) and of
    [PyFlyt/pz_envs/fixedwing_envs/ma_fixedwing_base_env.py]
    (class [MAFixedwingBaseEnv]).

    Conventions of the embedding.
    - NumPy [float64] values are exact rationals ([Q]); rounding is not
      modelled.  Equalities between computed numbers are therefore stated
      with [==] (and [vec_eq] on vectors).
    - A one-dimensional array is a [list Q], a two-dimensional one a
      [list (list Q)].
    - A Python exception is a value of [exn]; a method that may raise
      returns [result].  A method that mutates [self] takes the object and
      returns the updated one.
    - [math.cos], [math.sin] and [np.sqrt] leave the rationals; they are
      variables of the section that uses them. *)

From Stdlib Require Import String DecimalString DecimalNat.
From Stdlib Require Import QArith Qminmax Lqa QNsatz ZArith Lia Bool List FinFun.
Import ListNotations.
Open Scope Q_scope.

Set Implicit Arguments.

(** ** Exceptions and the error monad *)

(** The descriptions carried by the assertion errors of the source, kept
    structured: the f-string's text is fixed by the constructor and its
    interpolated values are the arguments. *)
Inductive message : Type :=
| MsgAgentHz (lowest highest : Z)
    (* "`agent_hz` must be round denominator of 120, try {lowest} or {highest}." *)
| MsgRenderMode (given : string)
    (* "Invalid render mode {render_mode}, only {...} allowed." *)
| MsgAngleRepresentation (given : string)
    (* "angle_representation must be either `euler` or `quaternion`, not {...}" *)
| MsgStartPosShape (shape : list nat)
    (* "Expected `start_pos` to be of shape [num_agents, 3], got {shape}." *)
| MsgPhysicsHz (given : Q).
    (* "Physics_hz is currently {physics_hz}, not the 240.0 that is recommended ..." *)

Inductive exn : Type :=
| AssertionError (m : message)
| UserWarning (m : message)
| ZeroDivisionError
| FloatingPointError
| IndexError
| KeyError (k : string)
| ValueError
| TypeError
| AttributeError.

Inductive result (A : Type) : Type :=
| OK (a : A)
| Raise (e : exn).
Arguments OK {A} a.
Arguments Raise {A} e.

Definition bind {A B} (c : result A) (f : A -> result B) : result B :=
  match c with
  | OK a => f a
  | Raise e => Raise e
  end.

Declare Scope result_scope.
Delimit Scope result_scope with result.
Notation "x <- c ;; k" := (bind c (fun x => k))
  (at level 61, c at next level, right associativity) : result_scope.
Notation "' p <- c ;; k" := (bind c (fun x => let p := x in k))
  (at level 61, p pattern, c at next level, right associativity) : result_scope.
Open Scope result_scope.

(** ** Python and NumPy primitives *)

(** [l[i]] with Python's negative indices; out of range raises. *)
Definition py_index {A} (l : list A) (i : Z) : result A :=
  let n := Z.of_nat (length l) in
  let j := (if i <? 0 then i + n else i)%Z in
  if ((j <? 0) || (n <=? j))%Z then Raise IndexError
  else match nth_error l (Z.to_nat j) with
       | Some a => OK a
       | None => Raise IndexError
       end.

(** [l[i] = v] on a one-dimensional array. *)
Fixpoint set_nth {A} (l : list A) (n : nat) (v : A) : list A :=
  match l, n with
  | [], _ => []
  | _ :: t, O => v :: t
  | h :: t, S m => h :: set_nth t m v
  end.

Definition py_setitem {A} (l : list A) (i : Z) (v : A) : result (list A) :=
  let n := Z.of_nat (length l) in
  let j := (if i <? 0 then i + n else i)%Z in
  if ((j <? 0) || (n <=? j))%Z then Raise IndexError
  else OK (set_nth l (Z.to_nat j) v).

(** [np.zeros(n)]. *)
Definition np_zeros (n : nat) : list Q := repeat 0 n.

(** Comparisons of floats, as booleans. *)
Definition Qltb (a b : Q) : bool := negb (Qle_bool b a).

(** [np.max] and [np.min] of a one-dimensional array; the empty array
    raises. *)
Definition np_max (v : list Q) : result Q :=
  match v with
  | [] => Raise ValueError
  | x :: t => OK (fold_left (fun m y => if Qltb m y then y else m) t x)
  end.

Definition np_min (v : list Q) : result Q :=
  match v with
  | [] => Raise ValueError
  | x :: t => OK (fold_left (fun m y => if Qltb y m then y else m) t x)
  end.

(** A float division.  NumPy yields a non-finite value when the divisor is
    zero; the model reports that as [FloatingPointError], so a run that
    returns [OK] never divided by zero. *)
Definition np_div (a b : Q) : result Q :=
  if Qeq_bool b 0 then Raise FloatingPointError else OK (a / b).

Fixpoint mapM {A B} (f : A -> result B) (l : list A) : result (list B) :=
  match l with
  | [] => OK []
  | a :: t => b <- f a ;; r <- mapM f t ;; OK (b :: r)
  end.

(** Elementwise binary operation on two arrays of one shape; arrays whose
    lengths differ do not broadcast, except a one-element array, which
    stretches. *)
Fixpoint zip_with (f : Q -> Q -> Q) (a b : list Q) : list Q :=
  match a, b with
  | x :: a', y :: b' => f x y :: zip_with f a' b'
  | _, _ => []
  end.

Definition np_binop (f : Q -> Q -> Q) (a b : list Q) : result (list Q) :=
  if (length a =? length b)%nat then OK (zip_with f a b)
  else match a, b with
       | [x], _ => OK (map (fun y => f x y) b)
       | _, [y] => OK (map (fun x => f x y) a)
       | _, _ => Raise ValueError
       end.

(** Dot product of a matrix row with a vector, and [np.matmul] of a matrix
    with a vector; the shapes must agree. *)
Definition dot (r v : list Q) : Q :=
  fold_right Qplus 0 (zip_with Qmult r v).

Definition np_matmul (m : list (list Q)) (v : list Q) : result (list Q) :=
  mapM (fun r => if (length r =? length v)%nat then OK (dot r v)
                 else Raise ValueError) m.

(** Equality of vectors and matrices up to the value of their entries. *)
Definition vec_eq : list Q -> list Q -> Prop := Forall2 Qeq.
Definition mat_eq : list (list Q) -> list (list Q) -> Prop := Forall2 vec_eq.

(** A Python float division; a zero divisor raises. *)
Definition py_div (a b : Q) : result Q :=
  if Qeq_bool b 0 then Raise ZeroDivisionError else OK (a / b).

(** [a += b] on arrays: [b] must broadcast to the shape of [a]. *)
Definition np_iadd (a b : list Q) : result (list Q) :=
  if (length a =? length b)%nat then OK (zip_with Qplus a b)
  else match b with
       | [y] => OK (map (fun x => x + y) a)
       | _ => Raise ValueError
       end.

(** [np.clip(x, lo, hi)], which is [minimum(maximum(x, lo), hi)]. *)
Definition np_clip (x lo hi : Q) : Q := Qmin (Qmax x lo) hi.

(** [int(x)] of a float: truncation toward zero. *)
Definition py_int (x : Q) : Z := Z.quot (Qnum x) (Zpos (Qden x)).

(** [a % b] on Python integers: the result has the sign of the divisor; a
    zero divisor raises. *)
Definition py_mod (a b : Z) : result Z :=
  if (b =? 0)%Z then Raise ZeroDivisionError else OK (a mod b)%Z.

(** [str(n)] for a non-negative integer. *)
Definition py_str (n : nat) : string := NilEmpty.string_of_uint (Nat.to_uint n).

(** A Python [dict] with string keys: insertion-ordered, one entry per
    key. *)
Definition dict (V : Type) : Type := list (string * V).

Fixpoint dict_get {V} (d : dict V) (k : string) : option V :=
  match d with
  | [] => None
  | (k', v) :: t => if String.eqb k' k then Some v else dict_get t k
  end.

(** [d[k]], which raises [KeyError] on a missing key. *)
Definition dict_item {V} (d : dict V) (k : string) : result V :=
  match dict_get d k with
  | Some v => OK v
  | None => Raise (KeyError k)
  end.

(** [d[k] = v]: an existing key keeps its position. *)
Fixpoint dict_set {V} (d : dict V) (k : string) (v : V) : dict V :=
  match d with
  | [] => [(k, v)]
  | (k', v') :: t =>
      if String.eqb k' k then (k', v) :: t else (k', v') :: dict_set t k v
  end.

Definition dict_keys {V} (d : dict V) : list string := map fst d.

(** [{k: v for k in keys}] *)
Definition dict_fromkeys {V} (keys : list string) (v : V) : dict V :=
  fold_left (fun d k => dict_set d k v) keys [].

(** [{**a, **b}] *)
Definition dict_merge {V} (a b : dict V) : dict V :=
  fold_left (fun d kv => dict_set d (fst kv) (snd kv)) b a.

(** [dict(zip(keys, values))] *)
Definition dict_zip {V} (keys : list string) (values : list V) : dict V :=
  fold_left (fun d kv => dict_set d (fst kv) (snd kv)) (combine keys values) [].

(** A [for] loop whose body may raise. *)
Fixpoint foldM {A S} (f : S -> A -> result S) (l : list A) (s : S) : result S :=
  match l with
  | [] => OK s
  | a :: t => s' <- f s a ;; foldM f t s'
  end.

(** An [np.ndarray] of any rank: its shape and its entries in row-major
    order. *)
Record ndarray : Type := {
  shape : list nat;
  data : list Q
}.

(** Equality of two shapes (tuples of dimensions). *)
Fixpoint shape_eqb (a b : list nat) : bool :=
  match a, b with
  | [], [] => true
  | x :: a', y :: b' => (x =? y)%nat && shape_eqb a' b'
  | _, _ => false
  end.

(** [len(a)]: the first dimension; a 0-d array has no length. *)
Definition np_len (a : ndarray) : result nat :=
  match shape a with
  | [] => Raise TypeError
  | n :: _ => OK n
  end.

(** ** The PID primitive *)

Module PID.

(** Modelled from the spec: the class [PyFlyt.core.PID.PID] is not among
    the sources.  The spec gives its data (gains, an output limit, a fixed
    timestep, integrator and previous-error state) and the contract of
    [step] and [reset]; each dimension is controlled independently.  A
    scalar controller is a controller on one-element vectors.  The spec
    does not say what state the constructor stores; the model stores
    zeros. *)
Record t : Type := mk {
  kp : list Q;
  ki : list Q;
  kd : list Q;
  limits : list Q;
  period : Q;
  integral : list Q;
  prev_error : list Q
}.

Definition init (Kp Ki Kd lim : list Q) (dt : Q) : t :=
  mk Kp Ki Kd lim dt (np_zeros (length Kp)) (np_zeros (length Kp)).

(** [reset()] zeroes integral and previous-error state. *)
Definition reset (c : t) : t :=
  mk (kp c) (ki c) (kd c) (limits c) (period c)
     (map (fun _ => 0) (integral c)) (map (fun _ => 0) (prev_error c)).

(** [step(measured, target)]: error = target - measured; the integral
    accumulates the error over the timestep; the derivative comes from
    consecutive errors; the output [kp*error + ki*integral + kd*derivative]
    is clamped to [+-limit] in each dimension. *)
Definition step (c : t) (measured target : list Q) : list Q * t :=
  let error := zip_with Qminus target measured in
  let integ := zip_with (fun i e => i + e * period c) (integral c) error in
  let deriv := zip_with (fun e p => (e - p) / period c) error (prev_error c) in
  let raw :=
    zip_with Qplus
      (zip_with Qplus (zip_with Qmult (kp c) error)
                      (zip_with Qmult (ki c) integ))
      (zip_with Qmult (kd c) deriv) in
  let out := zip_with (fun x l => np_clip x (- l) l) raw (limits c) in
  (out, mk (kp c) (ki c) (kd c) (limits c) (period c) integ error).

(** A controller whose integrator and previous error are all zero. *)
Definition fresh (c : t) : Prop :=
  Forall (fun x => x == 0) (integral c) /\
  Forall (fun x => x == 0) (prev_error c).

End PID.

(** ** [Drone] *)

Module Drone.

(** The [control_params] entry of one cascade stage in the vehicle's
    parameter file. *)
Record stage_params : Type := {
  p_kp : list Q;
  p_ki : list Q;
  p_kd : list Q;
  p_lim : list Q
}.

(** The parsed parameter file ([yaml.safe_load]). *)
Record params : Type := {
  thrust_to_weight : Q;
  thrust_const : Q;
  torque_const : Q;
  motor_noise_ratio : Q;
  p_drag_const_xyz : Q;
  p_drag_const_pqr : Q;
  p_ang_vel : stage_params;
  p_ang_pos : stage_params;
  p_lin_vel : stage_params;
  p_lin_pos : stage_params;
  p_z_pos : stage_params;
  p_z_vel : stage_params
}.

(** The attributes [__init__] assigns and no method changes afterwards. *)
Record config : Type := {
  physics_hz : Q;   (* the physics period, [1.0 / physics_hz] *)
  ctrl_period : Q;
  t2w : Q;
  kf : Q;
  km : Q;
  noise_ratio : Q;
  drag_const_xyz : Q;
  drag_const_pqr : Q;
  max_rpm : Q;
  motor_tau : Q;
  Kp_ang_vel : list Q; Ki_ang_vel : list Q; Kd_ang_vel : list Q; lim_ang_vel : list Q;
  Kp_ang_pos : list Q; Ki_ang_pos : list Q; Kd_ang_pos : list Q; lim_ang_pos : list Q;
  Kp_lin_vel : list Q; Ki_lin_vel : list Q; Kd_lin_vel : list Q; lim_lin_vel : list Q;
  Kp_lin_pos : list Q; Ki_lin_pos : list Q; Kd_lin_pos : list Q; lim_lin_pos : list Q
}.

(** The vehicle.  [state] is the 4x3 array
    [np.stack([ang_vel, ang_pos, lin_vel, lin_pos])]. *)
Record t : Type := mk {
  cfg : config;
  z_PIDs : list PID.t;
  PIDs : list PID.t;
  state : list (list Q);
  setpoint : list Q;
  rpm : list Q;
  pwm : list Q;
  mode : Z
}.

Definition with_PIDs (d : t) (l : list PID.t) : t :=
  mk (cfg d) (z_PIDs d) l (state d) (setpoint d) (rpm d) (pwm d) (mode d).
Definition with_z_PIDs (d : t) (l : list PID.t) : t :=
  mk (cfg d) l (PIDs d) (state d) (setpoint d) (rpm d) (pwm d) (mode d).
Definition with_state (d : t) (s : list (list Q)) : t :=
  mk (cfg d) (z_PIDs d) (PIDs d) s (setpoint d) (rpm d) (pwm d) (mode d).
Definition with_setpoint (d : t) (s : list Q) : t :=
  mk (cfg d) (z_PIDs d) (PIDs d) (state d) s (rpm d) (pwm d) (mode d).
Definition with_rpm (d : t) (r : list Q) : t :=
  mk (cfg d) (z_PIDs d) (PIDs d) (state d) (setpoint d) r (pwm d) (mode d).
Definition with_pwm (d : t) (w : list Q) : t :=
  mk (cfg d) (z_PIDs d) (PIDs d) (state d) (setpoint d) (rpm d) w (mode d).
Definition with_mode (d : t) (m : Z) : t :=
  mk (cfg d) (z_PIDs d) (PIDs d) (state d) (setpoint d) (rpm d) (pwm d) m.

(** [self.motor_map], assigned once in [__init__]. *)
Definition motor_map : list (list Q) :=
  [ [ 1; -1;  1; 1];
    [-1;  1;  1; 1];
    [ 1;  1; -1; 1];
    [-1; -1; -1; 1] ].

(** [Drone.pwm2rpm]:
    [self.rpm += (self.physics_hz / self.motor_tau) * (self.max_rpm * pwm - self.rpm)]. *)
Definition pwm2rpm (d : t) (w : list Q) : result (list Q * t) :=
  c <- py_div (physics_hz (cfg d)) (motor_tau (cfg d)) ;;
  delta <- np_binop Qminus (map (fun x => max_rpm (cfg d) * x) w) (rpm d) ;;
  r <- np_iadd (rpm d) (map (fun x => c * x) delta) ;;
  OK (r, with_rpm d r).

(** The floor shift of [cmd2pwm], on one element:
    [x + (1.0 - x) / (1.0 - low) * (0.05 - low)]. *)
Definition floor_shift (low x : Q) : result Q :=
  q <- np_div (1 - x) (1 - low) ;;
  OK (x + q * (0.05 - low)).

(** [Drone.cmd2pwm]. *)
Definition cmd2pwm (cmd : list Q) : result (list Q) :=
  pwm <- np_matmul motor_map cmd ;;
  (* deal with motor saturations *)
  high <- np_max pwm ;;
  pwm <- (if Qltb 1 high then mapM (fun x => np_div x high) pwm else OK pwm) ;;
  low <- np_min pwm ;;
  if Qltb low 0.05 then mapM (floor_shift low) pwm else OK pwm.

(** [Drone.update_state]: [reading] is the array the method stacks from
    the physics engine's pose and velocity queries. *)
Definition update_state (reading : list (list Q)) (d : t) : t :=
  with_state d reading.

(** The first half of [Drone.set_mode]: preset setpoints on mode change. *)
Definition preset_setpoint (m : Z) (d : t) : result (list Q) :=
  if (m =? 0)%Z then
    (* racing mode, thrust to 0 *)
    OK [0; 0; 0; -1]
  else if ((m =? 1) || (m =? 5) || (m =? 6))%Z then
    (* anything with a vz component, set to 0 vz *)
    OK [0; 0; 0; 0]
  else if (m =? 7)%Z then
    (* position mode just hold position *)
    lin_pos <- py_index (state d) (-1) ;;
    ang_pos <- py_index (state d) 1 ;;
    yaw <- py_index ang_pos (-1) ;;
    OK (firstn 2 lin_pos ++ [yaw])
  else
    (* everything else set to 0 except z component maintain *)
    lin_pos <- py_index (state d) (-1) ;;
    z <- py_index lin_pos (-1) ;;
    py_setitem [0; 0; 0; 0] (-1) z.

(** The second half of [Drone.set_mode]: instantiate PIDs.  A mode that
    matches no branch leaves [self.PIDs] as it was. *)
Definition instantiate_PIDs (m : Z) (d : t) : list PID.t :=
  let c := cfg d in
  let ang_vel_PID :=
    PID.init (Kp_ang_vel c) (Ki_ang_vel c) (Kd_ang_vel c) (lim_ang_vel c) (ctrl_period c) in
  let ang_pos_PID :=
    PID.init (Kp_ang_pos c) (Ki_ang_pos c) (Kd_ang_pos c) (lim_ang_pos c) (ctrl_period c) in
  let ang_pos_PID2 :=
    PID.init (firstn 2 (Kp_ang_pos c)) (firstn 2 (Ki_ang_pos c))
             (firstn 2 (Kd_ang_pos c)) (firstn 2 (lim_ang_pos c)) (ctrl_period c) in
  let lin_vel_PID :=
    PID.init (Kp_lin_vel c) (Ki_lin_vel c) (Kd_lin_vel c) (lim_lin_vel c) (ctrl_period c) in
  let lin_pos_PID :=
    PID.init (Kp_lin_pos c) (Ki_lin_pos c) (Kd_lin_pos c) (lim_lin_pos c) (ctrl_period c) in
  if ((m =? 0) || (m =? 2))%Z then [ang_vel_PID]
  else if ((m =? 1) || (m =? 3))%Z then [ang_vel_PID; ang_pos_PID]
  else if ((m =? 4) || (m =? 5) || (m =? 6))%Z then
    [ang_vel_PID; ang_pos_PID2; lin_vel_PID]
  else if (m =? 7)%Z then [ang_vel_PID; ang_pos_PID; lin_vel_PID; lin_pos_PID]
  else PIDs d.

(** [Drone.set_mode]. *)
Definition set_mode (m : Z) (d : t) : result t :=
  sp <- preset_setpoint m d ;;
  let d := with_setpoint d sp in
  let d := with_mode d m in
  let d := with_PIDs d (instantiate_PIDs m d) in
  OK (with_PIDs d (map PID.reset (PIDs d))).

(** [Drone.reset]; [reading] is what [update_state] reads after the base
    pose has been reset in the physics engine. *)
Definition reset (reading : list (list Q)) (d : t) : result t :=
  d <- set_mode 0 d ;;
  let d := with_state d (repeat (np_zeros 3) 4) in
  let d := with_setpoint d (np_zeros 4) in
  let d := with_rpm d (np_zeros 4) in
  let d := with_pwm d (np_zeros 4) in
  OK (update_state reading d).

(** Stepping the controller [l[i]]; the controller object is updated in
    place in its list. *)
Definition step_at (l : list PID.t) (i : Z) (measured target : list Q)
  : result (list Q * list PID.t) :=
  c <- py_index l i ;;
  let (out, c') := PID.step c measured target in
  l' <- py_setitem l i c' ;;
  OK (out, l').

Section Transcendental.

Variables cos sin sqrt : Q -> Q.

(** [rot_mat = np.array([[c, -s], [s, c]]).T] *)
Definition rot_mat (yaw : Q) : list (list Q) :=
  let c := cos yaw in
  let s := sin yaw in
  [[c; s]; [- s; c]].

(** The three inner stages shared by the lateral-velocity modes:
    [PIDs[2]] on the lateral velocity, the 90-degree remap, [PIDs[1]] on
    the two attitude axes, [PIDs[0]] on the rates with the yaw-rate
    setpoint appended. *)
Definition lateral_cascade (d : t) (target : list Q)
  : result (list Q * list PID.t) :=
  s2 <- py_index (state d) 2 ;;
  '(o, l) <- step_at (PIDs d) 2 (firstn 2 s2) target ;;
  o1 <- py_index o 1 ;;
  o0 <- py_index o 0 ;;
  s1 <- py_index (state d) 1 ;;
  '(o, l) <- step_at l 1 (firstn 2 s1) [- o1; o0] ;;
  s0 <- py_index (state d) 0 ;;
  sp2 <- py_index (setpoint d) 2 ;;
  step_at l 0 s0 (o ++ [sp2]).

(** [Drone.update_control]: runs through PID controllers.  [output] and
    [z_output] stay [None] when no branch matches the mode, and unpacking
    [None] into the command raises. *)
Definition update_control (d : t) : result t :=
  let m := mode d in
  (* angle controllers *)
  '(output, pids) <-
    (if ((m =? 0) || (m =? 2))%Z then
       s0 <- py_index (state d) 0 ;;
       '(o, l) <- step_at (PIDs d) 0 s0 (firstn 3 (setpoint d)) ;;
       OK (Some o, l)
     else if ((m =? 1) || (m =? 3))%Z then
       s1 <- py_index (state d) 1 ;;
       '(o, l) <- step_at (PIDs d) 1 s1 (firstn 3 (setpoint d)) ;;
       s0 <- py_index (state d) 0 ;;
       '(o, l) <- step_at l 0 s0 o ;;
       OK (Some o, l)
     else if ((m =? 4) || (m =? 5))%Z then
       '(o, l) <- lateral_cascade d (firstn 2 (setpoint d)) ;;
       OK (Some o, l)
     else if (m =? 6)%Z then
       s1 <- py_index (state d) 1 ;;
       yaw <- py_index s1 (-1) ;;
       o <- np_matmul (rot_mat yaw) (firstn 2 (setpoint d)) ;;
       '(o, l) <- lateral_cascade d o ;;
       OK (Some o, l)
     else if (m =? 7)%Z then
       s3 <- py_index (state d) 3 ;;
       '(o, l) <- step_at (PIDs d) 3 (firstn 2 s3) (firstn 2 (setpoint d)) ;;
       s1 <- py_index (state d) 1 ;;
       yaw <- py_index s1 (-1) ;;
       o <- np_matmul (rot_mat yaw) o ;;
       s2 <- py_index (state d) 2 ;;
       '(o, l) <- step_at l 2 (firstn 2 s2) o ;;
       o1 <- py_index o 1 ;;
       o0 <- py_index o 0 ;;
       sp2 <- py_index (setpoint d) 2 ;;
       '(o, l) <- step_at l 1 s1 [- o1; o0; sp2] ;;
       s0 <- py_index (state d) 0 ;;
       '(o, l) <- step_at l 0 s0 o ;;
       OK (Some o, l)
     else OK (None, PIDs d)) ;;
  (* height controllers *)
  '(z_output, zpids) <-
    (if (m =? 0)%Z then
       thrust <- py_index (setpoint d) (-1) ;;
       OK (Some [np_clip thrust 0 1], z_PIDs d)
     else if ((m =? 1) || (m =? 5) || (m =? 6))%Z then
       s2 <- py_index (state d) 2 ;;
       w <- py_index s2 (-1) ;;
       target <- py_index (setpoint d) (-1) ;;
       '(z, l) <- step_at (z_PIDs d) 0 [w] [target] ;;
       OK (Some (map (fun x => np_clip x 0 1) z), l)
     else if ((m =? 2) || (m =? 3) || (m =? 4) || (m =? 7))%Z then
       s3 <- py_index (state d) 3 ;;
       h <- py_index s3 (-1) ;;
       target <- py_index (setpoint d) (-1) ;;
       '(z, l) <- step_at (z_PIDs d) 1 [h] [target] ;;
       s2 <- py_index (state d) 2 ;;
       w <- py_index s2 (-1) ;;
       '(z, l) <- step_at l 0 [w] z ;;
       OK (Some (map (fun x => np_clip x 0 1) z), l)
     else OK (None, z_PIDs d)) ;;
  (* mix the commands *)
  match output, z_output with
  | Some o, Some z =>
      w <- cmd2pwm (o ++ z) ;;
      OK (with_pwm (with_z_PIDs (with_PIDs d pids) zpids) w)
  | _, _ => Raise TypeError
  end.

(** [Drone.update_forces], as far as the vehicle's own state goes: the
    motor ODE advances; forces, torques and drag go to the physics
    engine. *)
Definition update_forces (d : t) : result t :=
  '(_, d) <- pwm2rpm d (pwm d) ;;
  OK d.

(** [Drone.__init__], without the spawn and camera set-up.  The attributes
    that [reset] assigns do not exist before it runs; the record holds
    empty arrays there, and mode 0 reads none of them. *)
Definition __init__ (hz : Q) (ctrl_hz : Z) (prm : params)
  (reading : list (list Q)) : result t :=
  if negb (Qeq_bool hz 240) then Raise (UserWarning (MsgPhysicsHz hz))
  else
    period <- py_div 1 hz ;;
    ctrl <- py_div 1 (inject_Z ctrl_hz) ;;
    ratio <- py_div (thrust_to_weight prm * 9.81) (4 * thrust_const prm) ;;
    let c := {|
      physics_hz := period;
      ctrl_period := ctrl;
      t2w := thrust_to_weight prm;
      kf := thrust_const prm;
      km := torque_const prm;
      noise_ratio := motor_noise_ratio prm;
      drag_const_xyz := p_drag_const_xyz prm;
      drag_const_pqr := p_drag_const_pqr prm;
      (* maximum motor RPM *)
      max_rpm := sqrt ratio;
      (* motor modelled with first order ode, below is time const *)
      motor_tau := 0.01;
      Kp_ang_vel := p_kp (p_ang_vel prm); Ki_ang_vel := p_ki (p_ang_vel prm);
      Kd_ang_vel := p_kd (p_ang_vel prm); lim_ang_vel := p_lim (p_ang_vel prm);
      Kp_ang_pos := p_kp (p_ang_pos prm); Ki_ang_pos := p_ki (p_ang_pos prm);
      Kd_ang_pos := p_kd (p_ang_pos prm); lim_ang_pos := p_lim (p_ang_pos prm);
      Kp_lin_vel := p_kp (p_lin_vel prm); Ki_lin_vel := p_ki (p_lin_vel prm);
      Kd_lin_vel := p_kd (p_lin_vel prm); lim_lin_vel := p_lim (p_lin_vel prm);
      Kp_lin_pos := p_kp (p_lin_pos prm); Ki_lin_pos := p_ki (p_lin_pos prm);
      Kd_lin_pos := p_kd (p_lin_pos prm); lim_lin_pos := p_lim (p_lin_pos prm)
    |} in
    (* height controllers *)
    let z_pos_PID :=
      PID.init (p_kp (p_z_pos prm)) (p_ki (p_z_pos prm)) (p_kd (p_z_pos prm))
               (p_lim (p_z_pos prm)) ctrl in
    let z_vel_PID :=
      PID.init (p_kp (p_z_vel prm)) (p_ki (p_z_vel prm)) (p_kd (p_z_vel prm))
               (p_lim (p_z_vel prm)) ctrl in
    reset reading (mk c [z_vel_PID; z_pos_PID] [] [] [] [] [] 0).


End Transcendental.

(** *** Requests to the physics engine *)

(** [self.p.applyExternalForce(self.Id, link, force, position, LINK_FRAME)]
    and [self.p.applyExternalTorque(self.Id, link, torque, LINK_FRAME)]:
    the methods below return the requests they send, in order. *)
Inductive call : Type :=
| applyExternalForce (link : Z) (force position : list Q)
| applyExternalTorque (link : Z) (torque : list Q).

(** [self.thr_coeff], [self.tor_coeff] and [self.tor_dir] of [__init__]. *)
Definition thr_coeff (c : config) : list (list Q) :=
  [map (fun x => x * kf c) [0; 0; 1]].
Definition tor_coeff (c : config) : list (list Q) :=
  [map (fun x => x * km c) [0; 0; 1]].
Definition tor_dir : list (list Q) := [[1]; [1]; [-1]; [-1]].

(** [a * b] for [a] of shape (n, 1) and [b] of shape (1, 3): the rows of
    the result are the row of [b] scaled by the entries of [a]. *)
Definition outer (a : list Q) (b : list (list Q)) : result (list (list Q)) :=
  match b with
  | [row] => OK (map (fun x => map (fun y => x * y) row) a)
  | _ => Raise ValueError
  end.

(** [m * d] for [m] of shape (n, 3) and [d] of shape (4, 1): [n] must be
    4, or 1, in which case the one row stretches. *)
Definition scale_rows (m : list (list Q)) (d : list (list Q))
  : result (list (list Q)) :=
  let scale row di := map (fun y => y * hd 0 di) row in
  if (length m =? length d)%nat then
    OK (map (fun rd => scale (fst rd) (snd rd)) (combine m d))
  else match m with
       | [row] => OK (map (scale row) d)
       | _ => Raise ValueError
       end.

(** [x += noise * noise_ratio * x], where [noise i j] is the sample the
    generator draws for position (i, j). *)
Definition add_noise (ratio : Q) (noise : nat -> nat -> Q) (m : list (list Q))
  : list (list Q) :=
  map (fun ir =>
         map (fun jx => snd jx + noise (fst ir) (fst jx) * ratio * snd jx)
             (combine (seq 0 (length (snd ir))) (snd ir)))
      (combine (seq 0 (length m)) m).

(** [Drone.rpm2forces]: maps rpm to individual motor forces and torques.
    [noise_thr] and [noise_tor] are the two draws of
    [self.np_random.randn]. *)
Definition rpm2forces (d : t) (noise_thr noise_tor : nat -> nat -> Q)
  (rpm : list Q) : result (list call) :=
  let sq := map (fun x => x * x) rpm in
  thrust <- outer sq (thr_coeff (cfg d)) ;;
  t <- outer sq (tor_coeff (cfg d)) ;;
  torque <- scale_rows t tor_dir ;;
  (* add some random noise to the motor outputs *)
  let thrust := add_noise (noise_ratio (cfg d)) noise_thr thrust in
  let torque := add_noise (noise_ratio (cfg d)) noise_tor torque in
  OK (flat_map
        (fun x => [applyExternalForce (Z.of_nat (fst x)) (fst (snd x)) [0; 0; 0];
                   applyExternalTorque (Z.of_nat (fst x)) (snd (snd x))])
        (combine (seq 0 (length thrust)) (combine thrust torque))).

(** [Drone.update_drag]: adds drag to the model.  [lin_vel] and [ang_vel]
    are what [getBaseVelocity] returns, [contacts] the number of contact
    points. *)
Definition update_drag (d : t) (lin_vel ang_vel : list Q) (contacts : nat)
  : list call :=
  let drag_xyz := map (fun v => - drag_const_xyz (cfg d) * (v * v)) lin_vel in
  let drag_pqr := map (fun v => - drag_const_pqr (cfg d) * (v * v)) ang_vel in
  (* warning, the physics is funky for bounces *)
  if (contacts =? 0)%nat then
    [applyExternalForce (-1) drag_xyz [0; 0; 0];
     applyExternalTorque (-1) drag_pqr]
  else [].

End Drone.

(** ** [MAFixedwingBaseEnv] *)

Module MAEnv.

(** What [step] returns. *)
Record returns (Obs Any : Type) : Type := {
  observations : dict Obs;
  rewards : dict Q;
  terminations : dict bool;
  truncations : dict bool;
  infos : dict (dict Any)
}.

Section Env.

(** The simulation behind [self.aviary] is an external collaborator: its
    type and operations are variables.  [Obs] is what an observation hook
    returns, [Any] the type of the values of an info mapping. *)
Variables Aviary Obs Any : Type.
Variable make_aviary : ndarray -> ndarray -> bool -> option Z -> Aviary.
Variable register_all_new_bodies : Aviary -> Aviary.
Variable aviary_set_mode : Z -> Aviary -> Aviary.
Variable set_all_setpoints : list (list Q) -> Aviary -> Aviary.
Variable aviary_step : Aviary -> Aviary.
(** [self.metadata["render_modes"]], a class attribute of the concrete
    environment. *)
Variable render_modes : list string.

Record t : Type := mk {
  render_mode : bool;
  action_dim : nat;            (* [self._action_space.shape[0]] *)
  combined_dim : nat;          (* [self.combined_space.shape[0]] *)
  start_pos : ndarray;
  start_orn : ndarray;
  flight_dome_size : Q;
  max_steps : Z;
  env_step_ratio : Z;
  angle_representation : Z;
  num_possible_agents : nat;
  possible_agents : list string;
  agent_name_mapping : dict Z;
  current_actions : list (list Q);
  past_actions : list (list Q);
  (* assigned by [begin_reset] *)
  aviary : option Aviary;
  step_count : Z;
  agents : list string
}.

(** The task hooks, supplied by a concrete environment; they read the
    environment and return. *)
Variable compute_observation_by_id : t -> Z -> Obs.
Variable compute_term_trunc_reward_info_by_id :
  t -> Z -> bool * bool * Q * dict Any.

Definition with_actions (e : t) (cur past : list (list Q)) : t :=
  mk (render_mode e) (action_dim e) (combined_dim e) (start_pos e) (start_orn e)
     (flight_dome_size e) (max_steps e) (env_step_ratio e)
     (angle_representation e) (num_possible_agents e) (possible_agents e)
     (agent_name_mapping e) cur past (aviary e) (step_count e) (agents e).

Definition with_episode (e : t) (a : option Aviary) (n : Z) (ags : list string) : t :=
  mk (render_mode e) (action_dim e) (combined_dim e) (start_pos e) (start_orn e)
     (flight_dome_size e) (max_steps e) (env_step_ratio e)
     (angle_representation e) (num_possible_agents e) (possible_agents e)
     (agent_name_mapping e) (current_actions e) (past_actions e) a n ags.

(** ["uav_" + str(r)] *)
Definition agent_name (r : nat) : string := ("uav_" ++ py_str r)%string.
Arguments agent_name : simpl never.

(** [MAFixedwingBaseEnv.__init__]. *)
Definition __init__ (start_pos start_orn : ndarray) (assisted_flight : bool)
  (flight_dome_size max_duration_seconds : Q) (angle_representation : string)
  (agent_hz : Z) (render_mode : option string) : result t :=
  r <- py_mod 120 agent_hz ;;
  _ <- (if negb (r =? 0)%Z then
          q <- py_div 120 (inject_Z agent_hz) ;;
          d <- py_div 120 (inject_Z (py_int q + 1)) ;;
          let lowest := py_int d in
          d <- py_div 120 (inject_Z (py_int q)) ;;
          let highest := py_int d in
          Raise (AssertionError (MsgAgentHz lowest highest))
        else OK tt) ;;
  _ <- match render_mode with
       | Some m =>
           if existsb (String.eqb m) render_modes then OK tt
           else Raise (AssertionError (MsgRenderMode m))
       | None => OK tt
       end ;;
  (* attitude size increases by 1 for quaternion *)
  attitude_shape <-
    (if String.eqb angle_representation "euler" then OK 12%nat
     else if String.eqb angle_representation "quaternion" then OK 13%nat
     else Raise (AssertionError (MsgAngleRepresentation angle_representation))) ;;
  (* action space *)
  let action_dim := if assisted_flight then 4%nat else 6%nat in
  (* observation space *)
  let combined_dim := (attitude_shape + 6 + action_dim)%nat in
  (* check the start_pos shapes *)
  _ <- (if (length (shape start_pos) =? 2)%nat then OK tt
        else Raise (AssertionError (MsgStartPosShape (shape start_pos)))) ;;
  last <- py_index (shape start_pos) (-1) ;;
  _ <- (if (last =? 3)%nat then OK tt
        else Raise (AssertionError (MsgStartPosShape (shape start_pos)))) ;;
  _ <- (if shape_eqb (shape start_pos) (shape start_orn) then OK tt
        else Raise (AssertionError (MsgStartPosShape (shape start_pos)))) ;;
  q <- py_div 120 (inject_Z agent_hz) ;;
  (* select agents *)
  n <- np_len start_pos ;;
  let possible := map agent_name (seq 0 n) in
  let mapping := dict_zip possible (map Z.of_nat (seq 0 (length possible))) in
  OK (mk (match render_mode with Some _ => true | None => false end)
         action_dim combined_dim start_pos start_orn flight_dome_size
         (py_int (inject_Z agent_hz * max_duration_seconds))
         (py_int q)
         (if String.eqb angle_representation "euler" then 0 else 1)%Z
         n possible mapping
         (repeat (np_zeros action_dim) n)
         (repeat (np_zeros action_dim) n)
         None 0%Z []).

(** [begin_reset]: the attributes [aviary], [step_count] and [agents] do
    not exist before this call. *)
Definition begin_reset (seed : option Z) (e : t) : t :=
  with_episode e
    (Some (make_aviary (start_pos e) (start_orn e) (render_mode e) seed))
    0%Z (possible_agents e).

(** [end_reset]. *)
Definition end_reset (e : t) : result t :=
  match aviary e with
  | None => Raise AttributeError
  | Some a =>
      let a := register_all_new_bodies a in
      let a := aviary_set_mode 0 a in
      let a := Nat.iter 10 aviary_step a in
      OK (with_episode e (Some a) (step_count e) (agents e))
  end.

(** [self.current_actions[i] = v]: [v] must broadcast to the row. *)
Definition assign_row (cur : list (list Q)) (i : Z) (v : list Q)
  : result (list (list Q)) :=
  row <- py_index cur i ;;
  v' <- (if (length v =? length row)%nat then OK v
         else match v with
              | [x] => OK (repeat x (length row))
              | _ => Raise ValueError
              end) ;;
  py_setitem cur i v'.

(** The dispatch phase of [step]: the buffers after the actions have been
    copied in. *)
Definition dispatch (actions : dict (list Q)) (e : t) : result t :=
  (* copy over the past actions *)
  let past := current_actions e in
  (* set the new actions and send to aviary *)
  let cur := map (map (fun x => x * 0)) (current_actions e) in
  cur <- foldM (fun cur kv =>
                  i <- dict_item (agent_name_mapping e) (fst kv) ;;
                  assign_row cur i (snd kv))
               actions cur ;;
  match aviary e with
  | None => Raise AttributeError
  | Some a =>
      OK (with_episode (with_actions e cur past)
            (Some (set_all_setpoints cur a)) (step_count e) (agents e))
  end.

(** The body of the loop over [self.agents] inside one substep. *)
Definition update_agent (e : t) (r : returns Obs Any) (ag : string)
  : result (returns Obs Any) :=
  ag_id <- dict_item (agent_name_mapping e) ag ;;
  (* compute term trunc reward *)
  let '(term, trunc, rew, info) := compute_term_trunc_reward_info_by_id e ag_id in
  t0 <- dict_item (terminations r) ag ;;
  u0 <- dict_item (truncations r) ag ;;
  w0 <- dict_item (rewards r) ag ;;
  i0 <- dict_item (infos r) ag ;;
  (* compute observations *)
  OK {| observations := dict_set (observations r) ag (compute_observation_by_id e ag_id);
        rewards := dict_set (rewards r) ag (w0 + rew);
        terminations := dict_set (terminations r) ag (t0 || term);
        truncations := dict_set (truncations r) ag (u0 || trunc);
        infos := dict_set (infos r) ag (dict_merge i0 info) |}.

(** One substep: the simulation advances, then every live agent is
    updated. *)
Definition substep (s : t * returns Obs Any) : result (t * returns Obs Any) :=
  let (e, r) := s in
  match aviary e with
  | None => Raise AttributeError
  | Some a =>
      let e := with_episode e (Some (aviary_step a)) (step_count e) (agents e) in
      r <- foldM (update_agent e) (agents e) r ;;
      OK (e, r)
  end.

Fixpoint repeatM {S} (n : nat) (f : S -> result S) (s : S) : result S :=
  match n with
  | O => OK s
  | S m => s' <- f s ;; repeatM m f s'
  end.

(** [MAFixedwingBaseEnv.step]. *)
Definition step (actions : dict (list Q)) (e : t)
  : result (returns Obs Any * t) :=
  e <- dispatch actions e ;;
  (* observation and rewards dictionary *)
  let r := {| observations := [];
              rewards := dict_fromkeys (agents e) 0;
              terminations := dict_fromkeys (agents e) false;
              truncations := dict_fromkeys (agents e) false;
              infos := dict_fromkeys (agents e) [] |} in
  (* step enough times for one RL step *)
  '(e, r) <- repeatM (Z.to_nat (env_step_ratio e)) substep (e, r) ;;
  (* increment step count and cull dead agents for the next round *)
  let n := (step_count e + 1)%Z in
  live <- foldM (fun acc agent =>
                   t0 <- dict_item (terminations r) agent ;;
                   u0 <- dict_item (truncations r) agent ;;
                   OK (if negb (t0 || u0) then acc ++ [agent] else acc))
                (agents e) [] ;;
  OK (r, with_episode e (aviary e) n live).

End Env.

(** *** The drone options of [begin_reset] *)

(** A value of an options mapping, as far as Python's truth test tells
    values apart. *)
Inductive pyval : Type :=
| PNone
| PBool (b : bool)
| PNum (x : Q)
| PStr (s : string).

Definition truthy (v : pyval) : bool :=
  match v with
  | PNone => false
  | PBool b => b
  | PNum x => negb (Qeq_bool x 0)
  | PStr s => negb (String.eqb s "")
  end.

(** The [drone_options] argument: a sequence of dicts, a dict, [None], or
    anything else. *)
Inductive drone_options : Type :=
| OptSeq (l : list (dict pyval))
| OptDict (d : dict pyval)
| OptNone
| OptOther.

(** [d["drone_model"] = d.get("drone_model") or "acrowing_green"] *)
Definition default_drone_model (d : dict pyval) : dict pyval :=
  let model :=
    match dict_get d "drone_model" with
    | Some v => if truthy v then v else PStr "acrowing_green"
    | None => PStr "acrowing_green"
    end in
  dict_set d "drone_model" model.

(** The options paragraph of [begin_reset]: what is passed on to the
    [Aviary]. *)
Definition begin_reset_drone_options (o : drone_options) : drone_options :=
  (* need to handle Nones *)
  let o := match o with OptNone => OptDict [] | _ => o end in
  match o with
  | OptSeq l => OptSeq (map default_drone_model l)
  | OptDict d => OptDict (default_drone_model d)
  | _ => OptDict [("drone_model"%string, PStr "acrowing_green")]
  end.

(** *** Rotation matrices and forward vectors *)

(** The product of two matrices given as lists of rows. *)
Definition mat_col (m : list (list Q)) (j : nat) : list Q :=
  map (fun row => nth j row 0) m.

Definition mat_mul (a b : list (list Q)) : list (list Q) :=
  map (fun row => map (fun j => dot row (mat_col b j))
                      (seq 0 (length (hd [] b)))) a.

Section Rotation.

Variables cos sin : Q -> Q.

(** The body of [_jitted_compute_unit_rotation_forward] for one row [o]
    of [orn]: the three unit rotations and the forward vector. *)
Definition unit_rotation_forward (o : list Q)
  : result (list (list Q) * list (list Q) * list (list Q) * list Q) :=
  o0 <- py_index o 0 ;;
  o1 <- py_index o 1 ;;
  o2 <- py_index o 2 ;;
  let c0 := cos o0 in let s0 := sin o0 in
  let c1 := cos o1 in let s1 := sin o1 in
  let c2 := cos o2 in let s2 := sin o2 in
  (* create the rotation matrix *)
  let rx := [[1; 0; 0]; [0; c0; - s0]; [0; s0; c0]] in
  let ry := [[c1; 0; s1]; [0; 1; 0]; [- s1; 0; c1]] in
  let rz := [[c2; - s2; 0]; [s2; c2; 0]; [0; 0; 1]] in
  (* compute forward vector *)
  OK (rx, ry, rz, [c2 * c1; s2 * c1; - s1]).

(** [MAFixedwingBaseEnv._jitted_compute_unit_rotation_forward]: the
    arrays [rx], [ry], [rz] of shape [n, 3, 3] and [forward_vector] of
    shape [n, 3], for [orn] of shape [n, 3]. *)
Definition _jitted_compute_unit_rotation_forward (orn : list (list Q))
  : result (list (list (list Q)) * list (list (list Q)) *
            list (list (list Q)) * list (list Q)) :=
  rows <- mapM unit_rotation_forward orn ;;
  OK (map (fun r => fst (fst (fst r))) rows,
      map (fun r => snd (fst (fst r))) rows,
      map (fun r => snd (fst r)) rows,
      map (fun r => snd r) rows).

(** [a @ b] on two stacks of matrices. *)
Definition batch_mul (a b : list (list (list Q))) : list (list (list Q)) :=
  map (fun p => mat_mul (fst p) (snd p)) (combine a b).

(** [MAFixedwingBaseEnv.compute_rotation_forward]: the rotation matrix
    and the forward vector of each aircraft. *)
Definition compute_rotation_forward (orn : list (list Q))
  : result (list (list (list Q)) * list (list Q)) :=
  '(rx, ry, rz, forward_vector) <- _jitted_compute_unit_rotation_forward orn ;;
  (* order of operations for multiplication matters here *)
  OK (batch_mul (batch_mul rz ry) rx, forward_vector).

End Rotation.

End MAEnv.

(** * Specifications *)

(** ** The actuation model *)

(** The value the floor shift of [cmd2pwm] computes for one element, as an
    expression over the rationals. *)
Definition shifted (low x : Q) : Q := x + (1 - x) / (1 - low) * (0.05 - low).

(** A pulse width within the saturation limits. *)
Definition in_limits (x : Q) : Prop := 0.05 <= x /\ x <= 1.



(** A parameter file and a vehicle built from it, for the concrete runs. *)
Definition example_stage (n : nat) : Drone.stage_params :=
  {| Drone.p_kp := repeat 1 n; Drone.p_ki := repeat 0.5 n;
     Drone.p_kd := repeat 0 n; Drone.p_lim := repeat 2 n |}.

Definition example_params : Drone.params :=
  {| Drone.thrust_to_weight := 2;
     Drone.thrust_const := 0.25;
     Drone.torque_const := 0.01;
     Drone.motor_noise_ratio := 0;
     Drone.p_drag_const_xyz := 0.1;
     Drone.p_drag_const_pqr := 0.1;
     Drone.p_ang_vel := example_stage 3;
     Drone.p_ang_pos := example_stage 3;
     Drone.p_lin_vel := example_stage 2;
     Drone.p_lin_pos := example_stage 2;
     Drone.p_z_pos := example_stage 1;
     Drone.p_z_vel := example_stage 1 |}.

(** What the physics engine reports for a vehicle at rest at world
    position (2, 3, 1.5) with yaw 0.4. *)
Definition example_reading : list (list Q) :=
  [ [0; 0; 0]; [0; 0; 0.4]; [0; 0; 0]; [2; 3; 1.5] ].

(** A stand-in for the transcendental functions in concrete runs. *)
Definition id_fun (x : Q) : Q := x.

Definition example_drone : result Drone.t :=
  Drone.__init__ id_fun 240 120 example_params example_reading.

(** ** The flight-mode controller *)

(** The default setpoint on mode entry, row by row from the table of
    section 4.3 of the specification; [x], [y], [z] are the current world
    position and [yaw] the current yaw. *)
Definition default_setpoint (m : Z) (x y z yaw : Q) : list Q :=
  match m with
  | 0%Z => [0; 0; 0; -1]             (* zero rate, thrust = -1 (idle) *)
  | 1%Z | 5%Z | 6%Z => [0; 0; 0; 0]  (* zero *)
  | 2%Z | 3%Z | 4%Z => [0; 0; 0; z]  (* height = current *)
  | 7%Z => [x; y; yaw]               (* current xy + current yaw *)
  | _ => []
  end.

(** The number of stages of the cascade of each mode (the table's last
    column). *)
Definition cascade_stages (m : Z) : nat :=
  match m with
  | 0%Z | 2%Z => 1
  | 1%Z | 3%Z => 2
  | 4%Z | 5%Z | 6%Z => 3
  | 7%Z => 4
  | _ => 0
  end.

(** ** The multi-agent environment *)

(** The four conditions on the configuration of the environment: the
    agent rate divides the 120 Hz physics rate evenly, the angle
    representation is one of the two known, [start_pos] has shape
    [num_agents, 3], and [start_orn] has the shape of [start_pos]. *)
Definition valid_config (start_pos start_orn : ndarray)
  (angle_representation : string) (agent_hz : Z) : Prop :=
  (agent_hz <> 0 /\ 120 mod agent_hz = 0)%Z /\
  (angle_representation = "euler"%string \/
   angle_representation = "quaternion"%string) /\
  (exists n, shape start_pos = [n; 3%nat]) /\
  shape start_orn = shape start_pos.

(** An error that describes one of the four constraints. *)
Definition describes_constraint (e : exn) : Prop :=
  match e with
  | AssertionError (MsgAgentHz _ _) => True
  | AssertionError (MsgAngleRepresentation _) => True
  | AssertionError (MsgStartPosShape _) => True
  | _ => False
  end.

(** An array of zeros of shape [n, 3]. *)
Definition zeros_n3 (n : nat) : ndarray :=
  {| shape := [n; 3%nat]; data := repeat 0 (n * 3) |}.

(** The constructor of the environment on a trivial simulation, with
    ["human"] the one render mode, and everything but the agent rate and
    the number of agents at its default. *)
Definition example_env (n : nat) (agent_hz : Z) : result (MAEnv.t unit) :=
  MAEnv.__init__ unit ["human"%string] (zeros_n3 n) (zeros_n3 n) true
                 150 60 "euler" agent_hz None.

(** The environment is in an episode and its roster is consistent: a
    simulation is attached, the name mapping sends distinct names to
    distinct rows of the action buffer, every live agent is named in it,
    and every row of the buffer has the dimension of an action. *)
Definition wf_env {Aviary} (e : MAEnv.t Aviary) : Prop :=
  MAEnv.aviary e <> None /\
  NoDup (map snd (MAEnv.agent_name_mapping e)) /\
  Forall (fun kv => (0 <= snd kv < Z.of_nat (length (MAEnv.current_actions e)))%Z)
         (MAEnv.agent_name_mapping e) /\
  Forall (fun a => dict_get (MAEnv.agent_name_mapping e) a <> None) (MAEnv.agents e) /\
  Forall (fun row => length row = MAEnv.action_dim e) (MAEnv.current_actions e).

(** An action mapping the environment accepts: a dict (one entry per key)
    whose keys are agent names and whose values broadcast to a row. *)
Definition actions_ok {Aviary} (e : MAEnv.t Aviary) (actions : dict (list Q)) : Prop :=
  NoDup (dict_keys actions) /\
  Forall (fun kv =>
            dict_get (MAEnv.agent_name_mapping e) (fst kv) <> None /\
            (length (snd kv) = MAEnv.action_dim e \/ length (snd kv) = 1%nat))
         actions.

(** What a submitted value leaves in a row of [n] entries. *)
Definition stored_row (v : list Q) (n : nat) : list Q :=
  if (length v =? n)%nat then v
  else match v with
       | [x] => repeat x n
       | _ => v
       end.

(** The accumulated flag of an agent in a returned mapping. *)
Definition flag (d : dict bool) (a : string) : bool :=
  match dict_get d a with
  | Some b => b
  | None => false
  end.

(** The keys of a mapping are exactly the names in [A]. *)
Definition has_keys {V} (d : dict V) (A : list string) : Prop :=
  forall k, In k (dict_keys d) <-> In k A.

(** The four mappings that [step] initialises from the live agents are
    keyed by exactly the names in [A]. *)
Definition keyed {Obs Any} (A : list string) (r : MAEnv.returns Obs Any) : Prop :=
  has_keys (MAEnv.rewards r) A /\
  has_keys (MAEnv.terminations r) A /\
  has_keys (MAEnv.truncations r) A /\
  has_keys (MAEnv.infos r) A.

(** An agent that stays live: neither accumulated flag is set. *)
Definition live {Obs Any} (r : MAEnv.returns Obs Any) (a : string) : bool :=
  negb (flag (MAEnv.terminations r) a || flag (MAEnv.truncations r) a).

(** What the substeps of [step] leave alone in the environment. *)
Definition same_episode {Aviary} (e e' : MAEnv.t Aviary) : Prop :=
  MAEnv.aviary e' <> None /\
  MAEnv.agents e' = MAEnv.agents e /\
  MAEnv.agent_name_mapping e' = MAEnv.agent_name_mapping e /\
  MAEnv.current_actions e' = MAEnv.current_actions e /\
  MAEnv.past_actions e' = MAEnv.past_actions e /\
  MAEnv.step_count e' = MAEnv.step_count e /\
  MAEnv.env_step_ratio e' = MAEnv.env_step_ratio e /\
  MAEnv.action_dim e' = MAEnv.action_dim e.

(** Task hooks for the concrete runs: the observation is the agent's
    index; no agent ever finishes, or agent 1 terminates at once. *)
Definition index_observation (e : MAEnv.t unit) (i : Z) : Z := i.

Definition quiet_outcome (e : MAEnv.t unit) (i : Z) : bool * bool * Q * dict Z :=
  (false, false, 0, []).

Definition agent_1_terminates (e : MAEnv.t unit) (i : Z) : bool * bool * Q * dict Z :=
  ((i =? 1)%Z, false, 1, [("agent"%string, i)]).

(** [step] and the two halves of [reset] on the trivial simulation. *)
Definition example_step (outcome : MAEnv.t unit -> Z -> bool * bool * Q * dict Z)
  (actions : dict (list Q)) (e : MAEnv.t unit)
  : result (MAEnv.returns Z Z * MAEnv.t unit) :=
  MAEnv.step (fun _ a => a) (fun a => a) index_observation outcome actions e.

Definition example_episode (n : nat) (agent_hz : Z) : result (MAEnv.t unit) :=
  e <- example_env n agent_hz ;;
  MAEnv.end_reset (fun a => a) (fun _ a => a) (fun a => a)
                  (MAEnv.begin_reset (fun _ _ _ _ => tt) None e).


(** ** Further specifications *)

(** The saturation handling of [cmd2pwm] as one map on a pulse width:
    [high] is the maximum of the mixed array, [low] the minimum after the
    scaling step. *)
Definition saturate (high low x : Q) : Q :=
  let y := if Qltb 1 high then x / high else x in
  if Qltb low 0.05 then shifted low y else y.


(** The link a request addresses. *)
Definition link_of (c : Drone.call) : Z :=
  match c with
  | Drone.applyExternalForce l _ _ => l
  | Drone.applyExternalTorque l _ => l
  end.

(** The vector a request carries. *)
Definition vector_of (c : Drone.call) : list Q :=
  match c with
  | Drone.applyExternalForce _ f _ => f
  | Drone.applyExternalTorque _ t => t
  end.

(** A three-component vector along the z axis. *)
Definition along_z (v : list Q) : Prop :=
  match v with
  | [x; y; _] => x == 0 /\ y == 0
  | _ => False
  end.

(** The dimensions of the gains of a quadrotor parameter file: three
    axes for the angular stages, two for the lateral ones, one for each
    height stage. *)
Definition stage_dim (n : nat) (kp ki kd lim : list Q) : Prop :=
  length kp = n /\ length ki = n /\ length kd = n /\ length lim = n.

Definition pid_dim (n : nat) (c : PID.t) : Prop :=
  stage_dim n (PID.kp c) (PID.ki c) (PID.kd c) (PID.limits c) /\
  length (PID.integral c) = n /\ length (PID.prev_error c) = n.

Definition quad_gains (d : Drone.t) : Prop :=
  let c := Drone.cfg d in
  stage_dim 3 (Drone.Kp_ang_vel c) (Drone.Ki_ang_vel c)
              (Drone.Kd_ang_vel c) (Drone.lim_ang_vel c) /\
  stage_dim 3 (Drone.Kp_ang_pos c) (Drone.Ki_ang_pos c)
              (Drone.Kd_ang_pos c) (Drone.lim_ang_pos c) /\
  stage_dim 2 (Drone.Kp_lin_vel c) (Drone.Ki_lin_vel c)
              (Drone.Kd_lin_vel c) (Drone.lim_lin_vel c) /\
  stage_dim 2 (Drone.Kp_lin_pos c) (Drone.Ki_lin_pos c)
              (Drone.Kd_lin_pos c) (Drone.lim_lin_pos c) /\
  exists z_vel z_pos,
    Drone.z_PIDs d = [z_vel; z_pos] /\ pid_dim 1 z_vel /\ pid_dim 1 z_pos.

(** A state array of shape 4x3. *)
Definition state_4x3 (s : list (list Q)) : Prop :=
  length s = 4%nat /\ Forall (fun row => length row = 3%nat) s.

(** The dimensions of the controllers of the cascade of each mode,
    [PIDs[0]] first. *)
Definition cascade_dims (m : Z) : list nat :=
  match m with
  | 0%Z | 2%Z => [3]
  | 1%Z | 3%Z => [3; 3]
  | 4%Z | 5%Z | 6%Z => [3; 2; 2]
  | 7%Z => [3; 3; 2; 2]
  | _ => []
  end%nat.

(** A vehicle ready for a control tick: a mode in 0..7 whose cascade is
    in place with controllers of the right dimensions, two scalar height
    controllers, and a setpoint of three or four components. *)
Definition tick_ready (d : Drone.t) : Prop :=
  (0 <= Drone.mode d <= 7)%Z /\
  Forall2 pid_dim (cascade_dims (Drone.mode d)) (Drone.PIDs d) /\
  (exists z_vel z_pos,
     Drone.z_PIDs d = [z_vel; z_pos] /\ pid_dim 1 z_vel /\ pid_dim 1 z_pos) /\
  (length (Drone.setpoint d) = 3%nat \/ length (Drone.setpoint d) = 4%nat).


(** ** The stepping loop, in closed form *)

(** One substep as far as the environment goes: the simulation advances
    one tick. *)
Definition tick_env {Aviary} (aviary_step : Aviary -> Aviary)
  (e : MAEnv.t Aviary) : MAEnv.t Aviary :=
  match MAEnv.aviary e with
  | Some a => MAEnv.with_episode e (Some (aviary_step a))
                                 (MAEnv.step_count e) (MAEnv.agents e)
  | None => e
  end.

(** The environment after [n] substeps. *)
Fixpoint env_after {Aviary} (aviary_step : Aviary -> Aviary) (n : nat)
  (e : MAEnv.t Aviary) : MAEnv.t Aviary :=
  match n with
  | O => e
  | S k => env_after aviary_step k (tick_env aviary_step e)
  end.

(** Folding one outcome into the accumulated ones: the flags are or-ed,
    the rewards summed, the infos merged. *)
Definition fold_outcome {Any} (acc out : bool * bool * Q * dict Any)
  : bool * bool * Q * dict Any :=
  let '(t0, u0, w0, i0) := acc in
  let '(t, u, w, info) := out in
  (t0 || t, u0 || u, w0 + w, dict_merge i0 info).

(** The outcomes of [n] substeps for the agent of index [i], folded into
    [acc] in order. *)
Fixpoint fold_outcomes {Aviary Any} (aviary_step : Aviary -> Aviary)
  (outcome : MAEnv.t Aviary -> Z -> bool * bool * Q * dict Any)
  (n : nat) (e : MAEnv.t Aviary) (i : Z) (acc : bool * bool * Q * dict Any)
  : bool * bool * Q * dict Any :=
  match n with
  | O => acc
  | S k =>
      let e' := tick_env aviary_step e in
      fold_outcomes aviary_step outcome k e' i (fold_outcome acc (outcome e' i))
  end.

(** What the returned mappings hold for one agent: termination,
    truncation, reward and info. *)
Definition agent_view {Obs Any} (r : MAEnv.returns Obs Any) (a : string)
  : option (bool * bool * Q * dict Any) :=
  match dict_get (MAEnv.terminations r) a, dict_get (MAEnv.truncations r) a,
        dict_get (MAEnv.rewards r) a, dict_get (MAEnv.infos r) a with
  | Some t, Some u, Some w, Some i => Some (t, u, w, i)
  | _, _, _, _ => None
  end.

(** A run of several calls to [step], one per action mapping; the
    returned mappings are dropped. *)
Fixpoint run_steps {Aviary Obs Any}
  (step : dict (list Q) -> MAEnv.t Aviary ->
          result (MAEnv.returns Obs Any * MAEnv.t Aviary))
  (calls : list (dict (list Q))) (e : MAEnv.t Aviary) : result (MAEnv.t Aviary) :=
  match calls with
  | [] => OK e
  | a :: rest => re <- step a e ;; run_steps step rest (snd re)
  end.


(** The transpose of a matrix of three columns, the identity and the
    determinant of a 3x3 matrix. *)
Definition transpose3 (m : list (list Q)) : list (list Q) :=
  map (MAEnv.mat_col m) (seq 0 3).

Definition identity3 : list (list Q) := [[1; 0; 0]; [0; 1; 0]; [0; 0; 1]].

Definition entry (m : list (list Q)) (i j : nat) : Q := nth j (nth i m []) 0.

Definition det3 (m : list (list Q)) : Q :=
  entry m 0 0 * (entry m 1 1 * entry m 2 2 - entry m 1 2 * entry m 2 1)
  - entry m 0 1 * (entry m 1 0 * entry m 2 2 - entry m 1 2 * entry m 2 0)
  + entry m 0 2 * (entry m 1 0 * entry m 2 1 - entry m 1 1 * entry m 2 0).

(** A matrix and a vector as [compute_rotation_forward] pairs them: the
    matrix is a proper rotation and the vector has unit length. *)
Definition proper_rotation (m : list (list Q)) (f : list Q) : Prop :=
  mat_eq (MAEnv.mat_mul m (transpose3 m)) identity3 /\
  det3 m == 1 /\
  dot f f == 1.

(** A cosine and a sine on the rationals that satisfy the Pythagorean
    identity (the half-angle parametrisation of the circle). *)
Definition rational_cos (x : Q) : Q := (1 - x * x) / (1 + x * x).
Definition rational_sin (x : Q) : Q := (2 * x) / (1 + x * x).

(** An options dict names a usable model. *)
Definition has_model (d : dict MAEnv.pyval) : Prop :=
  exists v, dict_get d "drone_model" = Some v /\ MAEnv.truthy v = true.


(** * Proofs *)

Unset Implicit Arguments.

(** ** The error monad and the primitives *)

Lemma bind_OK {A B} (c : result A) (f : A -> result B) (b : B) :
  bind c f = OK b -> exists a, c = OK a /\ f a = OK b.
Proof. destruct c as [a|e]; simpl; [eauto | discriminate]. Qed.

Ltac inv_bind H :=
  let x := fresh "x" in
  let E := fresh "E" in
  apply bind_OK in H; destruct H as (x & E & H).

Lemma Qltb_true a b : Qltb a b = true <-> a < b.
Proof.
  unfold Qltb. rewrite negb_true_iff. split; intro H.
  - apply Qnot_le_lt. intro L. apply Qle_bool_iff in L. congruence.
  - destruct (Qle_bool b a) eqn:E; [|reflexivity].
    apply Qle_bool_iff in E. lra.
Qed.

Lemma Qltb_false a b : Qltb a b = false <-> b <= a.
Proof.
  unfold Qltb. rewrite negb_false_iff. apply Qle_bool_iff.
Qed.

Lemma np_div_OK a b : ~ b == 0 -> np_div a b = OK (a / b).
Proof.
  intro H. unfold np_div. destruct (Qeq_bool b 0) eqn:E; [|reflexivity].
  apply Qeq_bool_eq in E. contradiction.
Qed.

Lemma mapM_total {A B} (f : A -> result B) (g : A -> B) (l : list A) :
  Forall (fun a => f a = OK (g a)) l -> mapM f l = OK (map g l).
Proof.
  induction 1 as [|a l Ha _ IH]; simpl; [reflexivity|].
  rewrite Ha. simpl. rewrite IH. reflexivity.
Qed.

(** The running extremum of [np_max] and [np_min] is an element of the
    array and bounds every element. *)
Lemma fold_max_spec (t : list Q) (x : Q) :
  let m := fold_left (fun m y => if Qltb m y then y else m) t x in
  In m (x :: t) /\ Forall (fun y => y <= m) (x :: t).
Proof.
  revert x. induction t as [|y t IH]; intro x; simpl.
  - split; [auto | repeat constructor; lra].
  - destruct (Qltb x y) eqn:E.
    + apply Qltb_true in E. destruct (IH y) as [Hin Hall]. simpl in Hin.
      split; [tauto|]. inversion Hall as [|? ? Hy Ht]; subst.
      constructor; [lra|]. constructor; assumption.
    + apply Qltb_false in E. destruct (IH x) as [Hin Hall]. simpl in Hin.
      split; [tauto|]. inversion Hall as [|? ? Hx Ht]; subst.
      constructor; [assumption|]. constructor; [lra | assumption].
Qed.

Lemma fold_min_spec (t : list Q) (x : Q) :
  let m := fold_left (fun m y => if Qltb y m then y else m) t x in
  In m (x :: t) /\ Forall (fun y => m <= y) (x :: t).
Proof.
  revert x. induction t as [|y t IH]; intro x; simpl.
  - split; [auto | repeat constructor; lra].
  - destruct (Qltb y x) eqn:E.
    + apply Qltb_true in E. destruct (IH y) as [Hin Hall]. simpl in Hin.
      split; [tauto|]. inversion Hall as [|? ? Hy Ht]; subst.
      constructor; [lra|]. constructor; assumption.
    + apply Qltb_false in E. destruct (IH x) as [Hin Hall]. simpl in Hin.
      split; [tauto|]. inversion Hall as [|? ? Hx Ht]; subst.
      constructor; [assumption|]. constructor; [lra | assumption].
Qed.

Lemma np_max_spec v m :
  np_max v = OK m -> In m v /\ Forall (fun y => y <= m) v.
Proof.
  destruct v as [|x t]; simpl; [discriminate|].
  intro H. injection H as <-. apply fold_max_spec.
Qed.

Lemma np_min_spec v m :
  np_min v = OK m -> In m v /\ Forall (fun y => m <= y) v.
Proof.
  destruct v as [|x t]; simpl; [discriminate|].
  intro H. injection H as <-. apply fold_min_spec.
Qed.

Lemma np_max_total v : v <> [] -> exists m, np_max v = OK m.
Proof. destruct v; [congruence | simpl; eauto]. Qed.

Lemma np_min_total v : v <> [] -> exists m, np_min v = OK m.
Proof. destruct v; [congruence | simpl; eauto]. Qed.

(** ** The saturation handling of [cmd2pwm] *)

Lemma floor_shift_OK low x :
  low < 0.05 -> Drone.floor_shift low x = OK (shifted low x).
Proof.
  intro H. unfold Drone.floor_shift. rewrite np_div_OK by lra. reflexivity.
Qed.

Lemma shifted_affine low x :
  low < 0.05 ->
  shifted low x == (0.95 / (1 - low)) * x + (0.05 - low) / (1 - low).
Proof. intro H. unfold shifted. field. lra. Qed.

Lemma slope_pos low : low < 0.05 -> 0 < 0.95 / (1 - low).
Proof.
  intro H. apply Qlt_shift_div_l; lra.
Qed.



Lemma shifted_mono low x y :
  low < 0.05 -> x < y -> shifted low x < shifted low y.
Proof.
  intros H L. rewrite !shifted_affine by assumption.
  pose proof (slope_pos _ H) as P.
  set (a := 0.95 / (1 - low)) in *. nra.
Qed.

Lemma shifted_mono_le low x y :
  low < 0.05 -> x <= y -> shifted low x <= shifted low y.
Proof.
  intros H L. rewrite !shifted_affine by assumption.
  pose proof (slope_pos _ H) as P.
  set (a := 0.95 / (1 - low)) in *. nra.
Qed.

Lemma floor_shift_all low pwm :
  low < 0.05 ->
  mapM (Drone.floor_shift low) pwm = OK (map (shifted low) pwm).
Proof.
  intro H. apply mapM_total. apply Forall_forall. intros x _.
  now apply floor_shift_OK.
Qed.



(** ** Claims on the actuation model *)







(** ** The motor model *)







(** [__init__] installs the constants the motor model relies on, and
    leaves the vehicle in mode 0 with four-entry motor arrays. *)
Lemma init_motor_constants sqrt hz ctrl_hz prm reading d :
  Drone.__init__ sqrt hz ctrl_hz prm reading = OK d ->
  Drone.physics_hz (Drone.cfg d) == 1 / 240 /\
  Drone.motor_tau (Drone.cfg d) == 0.01 /\
  Drone.rpm d = np_zeros 4 /\ Drone.pwm d = np_zeros 4 /\
  Drone.setpoint d = np_zeros 4 /\ Drone.mode d = 0%Z /\
  Drone.state d = reading.
Proof.
  unfold Drone.__init__. destruct (Qeq_bool hz 240) eqn:E; simpl; [|discriminate].
  apply Qeq_bool_eq in E. intro H.
  inv_bind H. inv_bind H. inv_bind H.
  unfold py_div in E0. destruct (Qeq_bool hz 0); [discriminate|].
  injection E0 as <-.
  unfold Drone.reset in H. simpl in H. injection H as <-. simpl.
  repeat split; try reflexivity. rewrite E. reflexivity.
Qed.


(** ** The flight-mode controller *)

Lemma mode_cases (m : Z) :
  (0 <= m <= 7)%Z ->
  m = 0%Z \/ m = 1%Z \/ m = 2%Z \/ m = 3%Z \/
  m = 4%Z \/ m = 5%Z \/ m = 6%Z \/ m = 7%Z.
Proof. lia. Qed.

Ltac each_mode H :=
  apply mode_cases in H;
  repeat (destruct H as [H | H]); subst.

(** What [set_mode] leaves for a mode in 0..7 on a 4x3 state. *)
Lemma set_mode_returns
  (d : Drone.t) (m : Z) (ang_vel lin_vel : list Q) (r p yaw x y z : Q) :
  (0 <= m <= 7)%Z ->
  Drone.state d = [ang_vel; [r; p; yaw]; lin_vel; [x; y; z]] ->
  exists d',
    Drone.set_mode m d = OK d' /\
    Drone.mode d' = m /\
    Drone.setpoint d' = default_setpoint m x y z yaw.
Proof.
  intros Hm Hs. unfold Drone.set_mode, Drone.preset_setpoint.
  each_mode Hm; simpl; rewrite ?Hs; simpl;
    (eexists; split; [reflexivity | split; reflexivity]).
Qed.

(** C4: for every mode in 0..7 and every 4x3 vehicle state, [set_mode]
    returns and the setpoint it leaves is the default of the table: mode 0
    gives (0,0,0,-1); modes 1, 5, 6 the zero vector; modes 2, 3, 4 zeros
    with the current height last; mode 7 (world x, world y, yaw). *)
Theorem set_mode_default_setpoint
  (d : Drone.t) (m : Z) (ang_vel lin_vel : list Q) (r p yaw x y z : Q) :
  (0 <= m <= 7)%Z ->
  Drone.state d = [ang_vel; [r; p; yaw]; lin_vel; [x; y; z]] ->
  exists d',
    Drone.set_mode m d = OK d' /\
    Drone.mode d' = m /\
    Drone.setpoint d' = default_setpoint m x y z yaw.
Proof. exact (@set_mode_returns d m ang_vel lin_vel r p yaw x y z). Qed.

Lemma set_mode_default_setpoint_witness :
  exists d d',
    example_drone = OK d /\
    Drone.set_mode 7 d = OK d' /\
    Drone.mode d' = 7%Z /\
    Drone.setpoint d' = [2; 3; 0.4].
Proof.
  destruct example_drone as [d|] eqn:E; [|discriminate E].
  destruct (init_motor_constants _ _ _ _ _ _ E) as (_ & _ & _ & _ & _ & _ & Hs).
  destruct (@set_mode_default_setpoint d 7 [0; 0; 0] [0; 0; 0] 0 0 0.4 2 3 1.5)
    as (d' & H1 & H2 & H3); [lia | exact Hs |].
  exists d, d'. repeat split; assumption.
Defined.

(** Outside mode 7 the preset setpoint has four components, and so has
    the setpoint after [reset]. *)
Lemma set_mode_setpoint_length
  (d : Drone.t) (m : Z) (ang_vel lin_vel : list Q) (r p yaw x y z : Q) :
  (0 <= m <= 6)%Z ->
  Drone.state d = [ang_vel; [r; p; yaw]; lin_vel; [x; y; z]] ->
  exists d', Drone.set_mode m d = OK d' /\ length (Drone.setpoint d') = 4%nat.
Proof.
  intros Hm Hs.
  destruct (@set_mode_returns d m ang_vel lin_vel r p yaw x y z)
    as (d' & H1 & _ & H3); [lia | assumption |].
  exists d'. split; [assumption|]. rewrite H3.
  assert (Hm' : (0 <= m <= 7)%Z) by lia.
  each_mode Hm'; try reflexivity. lia.
Qed.

Lemma reset_setpoint_length (d : Drone.t) (reading : list (list Q)) :
  exists d', Drone.reset reading d = OK d' /\
             Drone.setpoint d' = [0; 0; 0; 0] /\ Drone.mode d' = 0%Z.
Proof.
  unfold Drone.reset, Drone.set_mode. simpl.
  eexists. split; [reflexivity|]. split; reflexivity.
Qed.

(** C5: entering mode 7 leaves a setpoint of three components, where the
    docstring of [set_mode] lists four quantities (x, y, r, z) for that
    mode; [update_control] then reads the last component, the yaw, as the
    height target. *)
Theorem set_mode_7_setpoint_has_three_components :
  exists d d',
    example_drone = OK d /\
    Drone.set_mode 7 d = OK d' /\
    Drone.setpoint d' = [2; 3; 0.4] /\
    length (Drone.setpoint d') = 3%nat /\
    py_index (Drone.setpoint d') (-1) = OK 0.4 /\
    py_index (Drone.state d') (-1) = OK [2; 3; 1.5].
Proof.
  destruct example_drone as [d|] eqn:E; [|discriminate E].
  vm_compute in E. injection E as <-.
  eexists. eexists. split; [reflexivity|].
  split; [reflexivity|]. repeat split; reflexivity.
Qed.

(** A mode outside 0..7 raises nothing: the tag is stored, the setpoint
    takes the "everything else" default, and the cascade of the previous
    mode is kept and reset. *)
Lemma set_mode_accepts_unknown_mode
  (d : Drone.t) (m : Z) (ang_vel ang_pos lin_vel : list Q) (x y z : Q) :
  (m < 0 \/ 7 < m)%Z ->
  Drone.state d = [ang_vel; ang_pos; lin_vel; [x; y; z]] ->
  exists d',
    Drone.set_mode m d = OK d' /\
    Drone.mode d' = m /\
    Drone.setpoint d' = [0; 0; 0; z] /\
    Drone.PIDs d' = map PID.reset (Drone.PIDs d).
Proof.
  intros Hm Hs. unfold Drone.set_mode, Drone.preset_setpoint, Drone.instantiate_PIDs.
  assert (E : forall k, (0 <= k <= 7)%Z -> (m =? k)%Z = false)
    by (intros k Hk; apply Z.eqb_neq; lia).
  rewrite !E by lia. simpl. rewrite Hs. simpl. rewrite ?E by lia. simpl.
  eexists. split; [reflexivity|]. repeat split; reflexivity.
Qed.

(** C9: [set_mode(8)] on a vehicle in mode 0 returns without an error and
    leaves the mode tag 8 together with the one-stage cascade of mode 0;
    the failure only shows in the next [update_control], as a
    [TypeError] that names no constraint. *)
Theorem set_mode_8_is_accepted :
  exists d d',
    example_drone = OK d /\
    Drone.mode d = 0%Z /\
    Drone.set_mode 8 d = OK d' /\
    Drone.mode d' = 8%Z /\
    Drone.PIDs d' = map PID.reset (Drone.PIDs d) /\
    length (Drone.PIDs d') = 1%nat /\
    Drone.update_control id_fun id_fun d' = Raise TypeError.
Proof.
  destruct example_drone as [d|] eqn:E; [|discriminate E].
  vm_compute in E. injection E as <-.
  eexists. eexists. split; [reflexivity|]. split; [reflexivity|].
  split; [reflexivity|]. repeat split; reflexivity.
Qed.

Lemma reset_fresh (c : PID.t) : PID.fresh (PID.reset c).
Proof.
  unfold PID.fresh, PID.reset. simpl.
  split; apply Forall_map, Forall_forall; intros; reflexivity.
Qed.

(** C7, as stated, fails on the height cascade: a vehicle enters mode 1,
    is given a climb-rate setpoint and runs one control tick, which steps
    the height controller [z_PIDs[0]]; after the next mode change, to
    mode 5, that controller still holds the integral and the previous
    error of the tick, and the next [update_control] steps it again. *)
Lemma set_mode_keeps_height_integrator :
  exists d0 d1 d2 d3 d4 c c',
    example_drone = OK d0 /\
    Drone.set_mode 1 d0 = OK d1 /\
    Drone.update_control id_fun id_fun (Drone.with_setpoint d1 [0; 0; 0; 1]) = OK d2 /\
    Drone.set_mode 5 d2 = OK d3 /\
    py_index (Drone.z_PIDs d3) 0 = OK c /\
    PID.integral c = [1 # 120] /\ PID.prev_error c = [1] /\
    ~ PID.fresh c /\
    Drone.update_control id_fun id_fun d3 = OK d4 /\
    py_index (Drone.z_PIDs d4) 0 = OK c' /\
    PID.prev_error c' <> PID.prev_error c.
Proof.
  destruct example_drone as [d0|] eqn:E0; [|discriminate E0].
  vm_compute in E0. injection E0 as <-.
  do 7 eexists.
  split; [reflexivity|].
  split; [vm_compute; reflexivity|].
  split; [vm_compute; reflexivity|].
  split; [vm_compute; reflexivity|].
  split; [vm_compute; reflexivity|].
  split; [reflexivity|]. split; [reflexivity|].
  split.
  { intros [Hi _]. simpl in Hi. inversion Hi as [|? ? Hx _]. discriminate Hx. }
  split; [vm_compute; reflexivity|].
  split; [vm_compute; reflexivity|].
  simpl. discriminate.
Qed.

(** C7, amended: for every mode in 0..7, [set_mode] builds the
    mode-specific cascade anew from the vehicle's gains, whatever cascade
    was there before, with the number of stages of the mode, and resets
    each of its controllers: every controller of [self.PIDs], hence every
    one [update_control] takes from it, has zero integral and zero
    previous error. *)
Theorem set_mode_fresh_mode_cascade
  (d : Drone.t) (m : Z) (ang_vel lin_vel : list Q) (r p yaw x y z : Q) :
  (0 <= m <= 7)%Z ->
  Drone.state d = [ang_vel; [r; p; yaw]; lin_vel; [x; y; z]] ->
  exists d',
    Drone.set_mode m d = OK d' /\
    length (Drone.PIDs d') = cascade_stages m /\
    Drone.PIDs d' = map PID.reset (Drone.instantiate_PIDs m (Drone.with_PIDs d [])) /\
    Forall PID.fresh (Drone.PIDs d').
Proof.
  intros Hm Hs.
  destruct (@set_mode_returns d m ang_vel lin_vel r p yaw x y z Hm Hs)
    as (d' & Hd & _ & _).
  exists d'. split; [exact Hd|].
  unfold Drone.set_mode in Hd. inv_bind Hd. injection Hd as <-. simpl.
  split; [|split].
  - rewrite length_map. each_mode Hm; reflexivity.
  - each_mode Hm; reflexivity.
  - apply Forall_map, Forall_forall. intros c _. apply reset_fresh.
Qed.

Lemma set_mode_fresh_mode_cascade_witness :
  exists d d',
    example_drone = OK d /\
    Drone.set_mode 6 d = OK d' /\
    length (Drone.PIDs d') = 3%nat /\
    Forall PID.fresh (Drone.PIDs d').
Proof.
  destruct example_drone as [d|] eqn:E; [|discriminate E].
  destruct (init_motor_constants _ _ _ _ _ _ E) as (_ & _ & _ & _ & _ & _ & Hs).
  destruct (@set_mode_fresh_mode_cascade d 6 [0; 0; 0] [0; 0; 0] 0 0 0.4 2 3 1.5)
    as (d' & H1 & H2 & _ & H4); [lia | exact Hs |].
  exists d, d'. repeat split; assumption.
Defined.

(** ** The constructor of the multi-agent environment *)

Lemma py_div_inject_Z (a : Q) (z : Z) :
  z <> 0%Z -> py_div a (inject_Z z) = OK (a / inject_Z z).
Proof.
  intro H. unfold py_div. destruct (Qeq_bool (inject_Z z) 0) eqn:E; [|reflexivity].
  apply Qeq_bool_eq in E. unfold Qeq in E. simpl in E. lia.
Qed.

Lemma shape_eqb_eq (a b : list nat) : shape_eqb a b = true <-> a = b.
Proof.
  revert b. induction a as [|x a IH]; intros [|y b]; simpl;
    try (split; [discriminate | congruence]); [tauto|].
  rewrite andb_true_iff, Nat.eqb_eq, IH. split.
  - intros [-> ->]. reflexivity.
  - intro H. injection H as -> ->. auto.
Qed.

(** A construction that succeeds has passed the four checks. *)
Lemma init_OK_valid_config (Aviary : Type) render_modes start_pos start_orn
  assisted dome dur angle hz render (e : MAEnv.t Aviary) :
  MAEnv.__init__ Aviary render_modes start_pos start_orn assisted dome dur
                 angle hz render = OK e ->
  valid_config start_pos start_orn angle hz.
Proof.
  unfold MAEnv.__init__. intro H.
  inv_bind H. rename x into r. rename E into Hr.
  unfold py_mod in Hr. destruct (hz =? 0)%Z eqn:Ehz; [discriminate|].
  apply Z.eqb_neq in Ehz. injection Hr as <-.
  inv_bind H.
  destruct (120 mod hz =? 0)%Z eqn:Emod; simpl in E.
  2:{ rewrite py_div_inject_Z in E by assumption. simpl in E.
      destruct (py_div 120 (inject_Z (py_int (120 / inject_Z hz) + 1))); simpl in E;
        [|discriminate].
      destruct (py_div 120 (inject_Z (py_int (120 / inject_Z hz)))); discriminate. }
  apply Z.eqb_eq in Emod. clear E x.
  inv_bind H. clear E x.
  inv_bind H. rename E into Hang.
  inv_bind H. rename E into Hlen.
  inv_bind H. rename E into Hlast.
  inv_bind H. rename E into H3.
  inv_bind H. rename E into Heq.
  clear H.
  split; [split; assumption|]. split; [|split].
  - destruct (String.eqb angle "euler") eqn:A1.
    + left. now apply String.eqb_eq.
    + destruct (String.eqb angle "quaternion") eqn:A2; [|discriminate].
      right. now apply String.eqb_eq.
  - destruct (length (shape start_pos) =? 2)%nat eqn:L; [|discriminate].
    apply Nat.eqb_eq in L.
    destruct (shape start_pos) as [|n [|k [|? ?]]]; try discriminate.
    vm_compute in Hlast. injection Hlast as <-.
    destruct (k =? 3)%nat eqn:K; [|discriminate]. apply Nat.eqb_eq in K.
    subst. eauto.
  - destruct (shape_eqb (shape start_pos) (shape start_orn)) eqn:S;
      [|discriminate]. symmetry. now apply shape_eqb_eq.
Qed.

(** Hence a configuration that violates one of the four conditions is
    refused at construction. *)
Lemma init_refuses_invalid_config (Aviary : Type) render_modes start_pos start_orn
  assisted dome dur angle hz render :
  ~ valid_config start_pos start_orn angle hz ->
  exists err,
    MAEnv.__init__ Aviary render_modes start_pos start_orn assisted dome dur
                   angle hz render = Raise err.
Proof.
  intro Hn.
  destruct (MAEnv.__init__ Aviary render_modes start_pos start_orn assisted dome dur
              angle hz render) as [e|err] eqn:E; [|eauto].
  apply init_OK_valid_config in E. contradiction.
Qed.


(** For an agent rate between 1 and 120 that does not divide 120, the
    error is the assertion that names the constraint. *)
Lemma init_describes_agent_hz (Aviary : Type) render_modes start_pos start_orn
  assisted dome dur angle hz render :
  (1 <= hz <= 120)%Z -> (120 mod hz <> 0)%Z ->
  exists lowest highest,
    MAEnv.__init__ Aviary render_modes start_pos start_orn assisted dome dur
                   angle hz render = Raise (AssertionError (MsgAgentHz lowest highest)).
Proof.
  intros Hr Hm. unfold MAEnv.__init__, py_mod.
  destruct (hz =? 0)%Z eqn:E; [apply Z.eqb_eq in E; lia|]. simpl.
  apply Z.eqb_neq in Hm. rewrite Hm. simpl.
  rewrite py_div_inject_Z by lia. simpl.
  assert (Q1 : (1 <= py_int (120 / inject_Z hz))%Z).
  { unfold py_int, Qdiv, Qinv, inject_Z. simpl.
    destruct hz as [|p|p]; try lia. simpl.
    apply Z.quot_le_lower_bound; lia. }
  rewrite !py_div_inject_Z by lia. simpl. eauto.
Qed.

(** ** Python dicts *)

Lemma dict_keys_set {V} (d : dict V) k v k' :
  In k' (dict_keys (dict_set d k v)) <-> k' = k \/ In k' (dict_keys d).
Proof.
  induction d as [|[k0 v0] d IH]; simpl.
  - intuition congruence.
  - destruct (String.eqb k0 k) eqn:E; simpl.
    + apply String.eqb_eq in E. subst. intuition congruence.
    + rewrite IH. intuition congruence.
Qed.

Lemma dict_get_keys {V} (d : dict V) k :
  In k (dict_keys d) <-> dict_get d k <> None.
Proof.
  induction d as [|[k0 v0] d IH]; simpl.
  - intuition congruence.
  - destruct (String.eqb k0 k) eqn:E.
    + apply String.eqb_eq in E. subst. intuition congruence.
    + apply String.eqb_neq in E. rewrite <- IH. intuition congruence.
Qed.

Lemma dict_item_OK {V} (d : dict V) k :
  dict_get d k <> None -> exists v, dict_item d k = OK v /\ dict_get d k = Some v.
Proof.
  unfold dict_item. destruct (dict_get d k) as [v|]; [eauto | congruence].
Qed.

Lemma dict_get_In {V} (d : dict V) k v :
  dict_get d k = Some v -> In (k, v) d.
Proof.
  induction d as [|[k0 v0] d IH]; simpl; [discriminate|].
  destruct (String.eqb k0 k) eqn:E.
  - apply String.eqb_eq in E. intro H. injection H as <-. subst. auto.
  - auto.
Qed.

Lemma dict_get_not_key {V} (d : dict V) k :
  ~ In k (dict_keys d) -> dict_get d k = None.
Proof.
  intro H. destruct (dict_get d k) eqn:E; [|reflexivity].
  exfalso. apply H. apply dict_get_keys. congruence.
Qed.

(** Two names that the mapping sends to one row are one name. *)
Lemma mapping_injective (m : dict Z) k1 k2 i :
  NoDup (map snd m) ->
  dict_get m k1 = Some i -> dict_get m k2 = Some i -> k1 = k2.
Proof.
  intros Hnd H1 H2. apply dict_get_In in H1, H2.
  induction m as [|[k0 i0] m IH]; simpl in *; [contradiction|].
  inversion Hnd as [|? ? Hni Hnd']; subst.
  destruct H1 as [H1|H1], H2 as [H2|H2].
  - congruence.
  - injection H1 as -> ->. exfalso. apply Hni.
    change i with (snd (k2, i)). now apply in_map.
  - injection H2 as -> ->. exfalso. apply Hni.
    change i with (snd (k1, i)). now apply in_map.
  - auto.
Qed.

Lemma has_keys_fromkeys {V} (A : list string) (v : V) :
  has_keys (dict_fromkeys A v) A.
Proof.
  unfold has_keys, dict_fromkeys.
  assert (G : forall (l : list string) (d : dict V) k,
             In k (dict_keys (fold_left (fun d k => dict_set d k v) l d)) <->
             In k (dict_keys d) \/ In k l).
  { induction l as [|a l IH]; intros d k; simpl; [tauto|].
    rewrite IH, dict_keys_set. intuition congruence. }
  intro k. rewrite G. simpl. tauto.
Qed.

Lemma has_keys_set {V} (d : dict V) A k v :
  has_keys d A -> In k A -> has_keys (dict_set d k v) A.
Proof.
  intros H Hk k'. rewrite dict_keys_set, (H k'). intuition congruence.
Qed.

(** ** Indexing *)

Lemma py_index_nth {A} (l : list A) (i : Z) :
  (0 <= i < Z.of_nat (length l))%Z ->
  exists x, py_index l i = OK x /\ nth_error l (Z.to_nat i) = Some x.
Proof.
  intro H. unfold py_index. cbv zeta.
  assert (E1 : (i <? 0)%Z = false) by (apply Z.ltb_ge; lia).
  assert (E3 : (Z.of_nat (length l) <=? i)%Z = false) by (apply Z.leb_gt; lia).
  rewrite !E1, E3. simpl. destruct (nth_error l (Z.to_nat i)) as [x|] eqn:E; [eauto|].
  apply nth_error_None in E. lia.
Qed.

Lemma py_setitem_nth {A} (l : list A) (i : Z) (v : A) :
  (0 <= i < Z.of_nat (length l))%Z ->
  py_setitem l i v = OK (set_nth l (Z.to_nat i) v).
Proof.
  intro H. unfold py_setitem. cbv zeta.
  assert (E1 : (i <? 0)%Z = false) by (apply Z.ltb_ge; lia).
  assert (E3 : (Z.of_nat (length l) <=? i)%Z = false) by (apply Z.leb_gt; lia).
  rewrite !E1, E3. reflexivity.
Qed.

Lemma length_set_nth {A} (l : list A) n v : length (set_nth l n v) = length l.
Proof.
  revert n. induction l as [|a l IH]; intros [|n]; simpl; auto.
Qed.

Lemma nth_error_set_nth_same {A} (l : list A) n v :
  (n < length l)%nat -> nth_error (set_nth l n v) n = Some v.
Proof.
  revert n. induction l as [|a l IH]; intros [|n] H; simpl in *; try lia; auto.
  apply IH. lia.
Qed.

Lemma nth_error_set_nth_other {A} (l : list A) n m v :
  n <> m -> nth_error (set_nth l n v) m = nth_error l m.
Proof.
  revert n m. induction l as [|a l IH]; intros [|n] [|m] H; simpl; auto.
  congruence.
Qed.

Lemma Forall_set_nth {A} (P : A -> Prop) (l : list A) n v :
  Forall P l -> P v -> Forall P (set_nth l n v).
Proof.
  intros Hl Hv. revert n. induction Hl as [|a l Ha Hl IH]; intros [|n]; simpl;
    constructor; auto.
Qed.

(** ** The dispatch phase of [step] *)

Lemma stored_row_length (v : list Q) (n : nat) :
  length v = n \/ length v = 1%nat -> length (stored_row v n) = n.
Proof.
  unfold stored_row. destruct (length v =? n)%nat eqn:E.
  - apply Nat.eqb_eq in E. auto.
  - apply Nat.eqb_neq in E. intros [H|H]; [contradiction|].
    destruct v as [|x [|? ?]]; try discriminate. apply repeat_length.
Qed.

Lemma assign_row_OK (cur : list (list Q)) (i : Z) (v : list Q) (dim : nat) :
  (0 <= i < Z.of_nat (length cur))%Z ->
  Forall (fun row => length row = dim) cur ->
  length v = dim \/ length v = 1%nat ->
  MAEnv.assign_row cur i v = OK (set_nth cur (Z.to_nat i) (stored_row v dim)).
Proof.
  intros Hi Hrows Hv. unfold MAEnv.assign_row.
  destruct (py_index_nth cur _ Hi) as (row & -> & Hn). simpl.
  assert (Hr : length row = dim).
  { rewrite Forall_forall in Hrows. apply Hrows. eapply nth_error_In; eauto. }
  rewrite Hr. unfold stored_row.
  destruct (length v =? dim)%nat eqn:E; simpl.
  - now apply py_setitem_nth.
  - apply Nat.eqb_neq in E. destruct Hv as [Hv|Hv]; [contradiction|].
    destruct v as [|x [|? ?]]; try discriminate. simpl.
    now apply py_setitem_nth.
Qed.

(** The loop that copies the submitted actions into the buffer [cur]:
    the row of a submitted name holds the submitted value, every other
    row is as in [cur]. *)
Lemma copy_actions (M : dict Z) (dim : nat) (actions : dict (list Q)) :
  NoDup (map snd M) ->
  NoDup (dict_keys actions) ->
  forall cur : list (list Q),
  Forall (fun kv => (0 <= snd kv < Z.of_nat (length cur))%Z) M ->
  Forall (fun row => length row = dim) cur ->
  Forall (fun kv => dict_get M (fst kv) <> None /\
                    (length (snd kv) = dim \/ length (snd kv) = 1%nat)) actions ->
  exists cur',
    foldM (fun cur kv => i <- dict_item M (fst kv) ;;
                         MAEnv.assign_row cur i (snd kv)) actions cur = OK cur' /\
    length cur' = length cur /\
    Forall (fun row => length row = dim) cur' /\
    forall k i, dict_get M k = Some i ->
      nth_error cur' (Z.to_nat i) =
      match dict_get actions k with
      | Some v => Some (stored_row v dim)
      | None => nth_error cur (Z.to_nat i)
      end.
Proof.
  intros HM Hnd. induction actions as [|[k0 v0] rest IH]; intros cur Hrange Hrows Hok.
  - exists cur. simpl. auto.
  - inversion Hnd as [|? ? Hk0 Hnd']; subst.
    inversion Hok as [|? ? [Hin Hlen] Hok']; subst. simpl in Hin, Hlen.
    destruct (dict_item_OK _ _ Hin) as (i0 & Hitem & Hget).
    assert (Hi0 : (0 <= i0 < Z.of_nat (length cur))%Z).
    { rewrite Forall_forall in Hrange.
      apply (Hrange (k0, i0)). now apply dict_get_In. }
    simpl. rewrite Hitem. simpl.
    rewrite (assign_row_OK cur _ _ _ Hi0 Hrows Hlen). simpl.
    set (cur1 := set_nth cur (Z.to_nat i0) (stored_row v0 dim)).
    destruct (IH Hnd' cur1) as (cur' & Hf & Hl & Hr & Hrow).
    + unfold cur1. rewrite length_set_nth. exact Hrange.
    + unfold cur1. apply Forall_set_nth; [assumption|].
      now apply stored_row_length.
    + assumption.
    + exists cur'. split; [exact Hf|].
      split; [rewrite Hl; apply length_set_nth|]. split; [exact Hr|].
      intros k i Hk. rewrite (Hrow k i Hk).
      destruct (String.eqb k0 k) eqn:E.
      * apply String.eqb_eq in E. subst k.
        rewrite (dict_get_not_key _ _ Hk0).
        assert (i = i0) by congruence. subst i.
        unfold cur1. apply nth_error_set_nth_same. lia.
      * destruct (dict_get rest k); [reflexivity|].
        unfold cur1. apply nth_error_set_nth_other.
        apply String.eqb_neq in E. intro Heq. apply E.
        assert (i0 = i).
        { rewrite Forall_forall in Hrange.
          pose proof (Hrange (k, i) (dict_get_In _ _ _ Hk)) as R. simpl in R. lia. }
        subst. eapply mapping_injective; eauto.
Qed.

(** ** The roster that the constructor builds *)

Lemma py_str_inj (a b : nat) : py_str a = py_str b -> a = b.
Proof.
  unfold py_str. intro H.
  assert (E : Some (Nat.to_uint a) = Some (Nat.to_uint b))
    by (rewrite <- !NilEmpty.usu, H; reflexivity).
  injection E as E.
  rewrite <- (Unsigned.of_to a), <- (Unsigned.of_to b), E. reflexivity.
Qed.

Lemma agent_names_NoDup (n : nat) :
  NoDup (map MAEnv.agent_name (seq 0 n)).
Proof.
  apply Injective_map_NoDup; [|apply seq_NoDup].
  intros a b H. unfold MAEnv.agent_name in H. simpl in H.
  injection H as H. now apply py_str_inj.
Qed.

Lemma dict_set_fresh {V} (d : dict V) k v :
  ~ In k (dict_keys d) -> dict_set d k v = d ++ [(k, v)].
Proof.
  induction d as [|[k0 v0] d IH]; simpl; intro H; [reflexivity|].
  destruct (String.eqb k0 k) eqn:E.
  - apply String.eqb_eq in E. tauto.
  - rewrite IH by tauto. reflexivity.
Qed.

(** With distinct keys, [dict(zip(keys, values))] lists the pairs in
    order. *)
Lemma dict_zip_combine {V} (keys : list string) (values : list V) :
  NoDup keys -> dict_zip keys values = combine keys values.
Proof.
  intro Hnd. unfold dict_zip.
  assert (G : forall (l d : dict V),
             NoDup (dict_keys d ++ dict_keys l) ->
             fold_left (fun d kv => dict_set d (fst kv) (snd kv)) l d = d ++ l).
  { induction l as [|[k v] l IH]; intros d H; simpl.
    - now rewrite app_nil_r.
    - simpl in H. rewrite dict_set_fresh.
      + rewrite IH.
        * rewrite <- app_assoc. reflexivity.
        * unfold dict_keys in *. rewrite map_app. simpl.
          rewrite <- app_assoc. simpl. exact H.
      + intro Hin. apply NoDup_remove_2 in H. apply H.
        apply in_or_app. left. exact Hin. }
  rewrite G; [reflexivity|]. simpl.
  revert values. induction Hnd as [|k keys Hk Hnd IH]; intros [|v values]; simpl;
    try constructor.
  - intro Hin. apply Hk. unfold dict_keys in Hin.
    apply in_map_iff in Hin. destruct Hin as ([k' v'] & <- & Hin).
    apply in_combine_l in Hin. exact Hin.
  - apply IH.
Qed.

Lemma combine_fst {A B} (l : list A) (l' : list B) :
  length l = length l' -> map fst (combine l l') = l.
Proof.
  revert l'. induction l as [|a l IH]; intros [|b l'] H; simpl in *;
    try discriminate; [reflexivity|]. f_equal. apply IH. lia.
Qed.

Lemma combine_snd {A B} (l : list A) (l' : list B) :
  length l = length l' -> map snd (combine l l') = l'.
Proof.
  revert l'. induction l as [|a l IH]; intros [|b l'] H; simpl in *;
    try discriminate; [reflexivity|]. f_equal. apply IH. lia.
Qed.

(** The roster of a freshly constructed environment, once [begin_reset]
    has attached a simulation, is consistent. *)
Lemma init_begin_reset_wf (Aviary : Type) render_modes start_pos start_orn
  assisted dome dur angle hz render (e : MAEnv.t Aviary) make_aviary seed :
  MAEnv.__init__ Aviary render_modes start_pos start_orn assisted dome dur
                 angle hz render = OK e ->
  wf_env (MAEnv.begin_reset make_aviary seed e) /\
  MAEnv.agents (MAEnv.begin_reset make_aviary seed e) = MAEnv.possible_agents e /\
  MAEnv.env_step_ratio e = py_int (120 / inject_Z hz).
Proof.
  unfold MAEnv.__init__. intro H.
  do 10 inv_bind H. rename x8 into n. injection H as <-.
  assert (Hq : x7 = 120 / inject_Z hz).
  { unfold py_div in E7. destruct (Qeq_bool (inject_Z hz) 0); [discriminate|].
    now injection E7 as <-. }
  unfold wf_env. simpl.
  set (names := map MAEnv.agent_name (seq 0 n)).
  assert (Hnames : NoDup names) by apply agent_names_NoDup.
  assert (Hlen : length names = n) by (unfold names; rewrite length_map, length_seq; reflexivity).
  rewrite Hlen, dict_zip_combine by assumption.
  assert (Hsnd : map snd (combine names (map Z.of_nat (seq 0 n))) = map Z.of_nat (seq 0 n))
    by (apply combine_snd; rewrite Hlen, length_map, length_seq; reflexivity).
  split; [|split; [reflexivity | rewrite Hq; reflexivity]].
  split; [discriminate|]. split; [|split; [|split]].
  - rewrite Hsnd. apply Injective_map_NoDup; [|apply seq_NoDup].
    intros a b. apply Nat2Z.inj.
  - rewrite repeat_length. apply Forall_forall. intros [k i] Hin. simpl.
    assert (Hi : In i (map Z.of_nat (seq 0 n))).
    { rewrite <- Hsnd. change i with (snd (k, i)). now apply in_map. }
    apply in_map_iff in Hi. destruct Hi as (j & <- & Hj). apply in_seq in Hj. lia.
  - apply Forall_forall. intros a Ha. apply dict_get_keys.
    unfold dict_keys. 
    assert (Hfst : map fst (combine names (map Z.of_nat (seq 0 n))) = names)
      by (apply combine_fst; rewrite Hlen, length_map, length_seq; reflexivity).
    rewrite Hfst. exact Ha.
  - apply Forall_forall. intros row Hrow. apply repeat_spec in Hrow. rewrite Hrow.
    apply repeat_length.
Qed.

(** [end_reset] keeps the roster consistent. *)
Lemma end_reset_wf (Aviary : Type) register set_mode aviary_step (e : MAEnv.t Aviary) :
  wf_env e ->
  exists e',
    MAEnv.end_reset register set_mode aviary_step e = OK e' /\
    wf_env e' /\
    MAEnv.agents e' = MAEnv.agents e /\
    MAEnv.env_step_ratio e' = MAEnv.env_step_ratio e.
Proof.
  intros (Hav & Hrest). unfold MAEnv.end_reset.
  destruct (MAEnv.aviary e) as [a|]; [|congruence].
  eexists. split; [reflexivity|]. unfold wf_env. simpl.
  split; [|split; reflexivity]. split; [discriminate | exact Hrest].
Qed.

Section Step.

Variables Aviary Obs Any : Type.
Variable set_all_setpoints : list (list Q) -> Aviary -> Aviary.
Variable aviary_step : Aviary -> Aviary.
Variable compute_observation_by_id : MAEnv.t Aviary -> Z -> Obs.
Variable compute_term_trunc_reward_info_by_id :
  MAEnv.t Aviary -> Z -> bool * bool * Q * dict Any.

Abbreviation dispatch := (MAEnv.dispatch set_all_setpoints).
Abbreviation update_agent :=
  (MAEnv.update_agent compute_observation_by_id
                      compute_term_trunc_reward_info_by_id).
Abbreviation substep :=
  (MAEnv.substep aviary_step compute_observation_by_id
                 compute_term_trunc_reward_info_by_id).
Abbreviation step :=
  (MAEnv.step set_all_setpoints aviary_step compute_observation_by_id
              compute_term_trunc_reward_info_by_id).

(** The dispatch phase returns; the past buffer is the buffer from before
    the call, the row of a submitted name holds the submitted value and
    every other row is the old row times zero. *)
Lemma dispatch_OK (e : MAEnv.t Aviary) (actions : dict (list Q)) :
  wf_env e -> actions_ok e actions ->
  exists e1,
    dispatch actions e = OK e1 /\
    MAEnv.aviary e1 <> None /\
    MAEnv.agents e1 = MAEnv.agents e /\
    MAEnv.agent_name_mapping e1 = MAEnv.agent_name_mapping e /\
    MAEnv.step_count e1 = MAEnv.step_count e /\
    MAEnv.env_step_ratio e1 = MAEnv.env_step_ratio e /\
    MAEnv.action_dim e1 = MAEnv.action_dim e /\
    MAEnv.past_actions e1 = MAEnv.current_actions e /\
    length (MAEnv.current_actions e1) = length (MAEnv.current_actions e) /\
    Forall (fun row => length row = MAEnv.action_dim e) (MAEnv.current_actions e1) /\
    forall k i, dict_get (MAEnv.agent_name_mapping e) k = Some i ->
      nth_error (MAEnv.current_actions e1) (Z.to_nat i) =
      match dict_get actions k with
      | Some v => Some (stored_row v (MAEnv.action_dim e))
      | None => option_map (map (fun x => x * 0))
                           (nth_error (MAEnv.current_actions e) (Z.to_nat i))
      end.
Proof.
  intros (Hav & Hinj & Hrange & Hags & Hrows) (Hnd & Hok).
  unfold MAEnv.dispatch.
  set (cur0 := map (map (fun x => x * 0)) (MAEnv.current_actions e)).
  destruct (copy_actions (MAEnv.agent_name_mapping e) (MAEnv.action_dim e)
              actions Hinj Hnd cur0) as (cur' & Hf & Hl & Hr & Hrow).
  - unfold cur0. rewrite length_map. exact Hrange.
  - unfold cur0. apply Forall_map. revert Hrows. apply Forall_impl.
    intros row Hrow. rewrite length_map. exact Hrow.
  - exact Hok.
  - rewrite Hf. simpl.
    destruct (MAEnv.aviary e) as [a|] eqn:Ea; [|congruence].
    eexists. split; [reflexivity|]. simpl.
    split; [discriminate|]. do 6 (split; [reflexivity|]).
    split; [rewrite Hl; unfold cur0; apply length_map|].
    split; [exact Hr|].
    intros k i Hk. rewrite (Hrow k i Hk).
    destruct (dict_get actions k); [reflexivity|].
    unfold cur0. apply nth_error_map.
Qed.

(** One agent's update inside a substep. *)
Lemma update_agent_OK (e : MAEnv.t Aviary) (r : MAEnv.returns Obs Any)
  (A : list string) (ag : string) :
  In ag A ->
  dict_get (MAEnv.agent_name_mapping e) ag <> None ->
  keyed A r ->
  exists r',
    update_agent e r ag = OK r' /\
    keyed A r' /\
    forall k, In k (dict_keys (MAEnv.observations r')) <->
              k = ag \/ In k (dict_keys (MAEnv.observations r)).
Proof.
  intros Hin Hmap (Kr & Kt & Ku & Ki). unfold MAEnv.update_agent.
  destruct (dict_item_OK _ _ Hmap) as (i & -> & _). simpl.
  destruct (compute_term_trunc_reward_info_by_id e i) as [[[term trunc] rew] info].
  assert (G : forall V (d : dict V), has_keys d A -> dict_get d ag <> None).
  { intros V d Hd. apply dict_get_keys, Hd, Hin. }
  destruct (dict_item_OK _ _ (G _ _ Kt)) as (t0 & -> & _). simpl.
  destruct (dict_item_OK _ _ (G _ _ Ku)) as (u0 & -> & _). simpl.
  destruct (dict_item_OK _ _ (G _ _ Kr)) as (w0 & -> & _). simpl.
  destruct (dict_item_OK _ _ (G _ _ Ki)) as (i0 & -> & _). simpl.
  eexists. split; [reflexivity|]. simpl. split.
  - repeat split; apply has_keys_set; assumption.
  - intro k. apply dict_keys_set.
Qed.

(** The loop over the live agents inside a substep. *)
Lemma agents_loop_OK (e : MAEnv.t Aviary) (A l : list string) :
  incl l A ->
  Forall (fun a => dict_get (MAEnv.agent_name_mapping e) a <> None) l ->
  forall r, keyed A r ->
  exists r',
    foldM (update_agent e) l r = OK r' /\
    keyed A r' /\
    forall k, In k (dict_keys (MAEnv.observations r')) <->
              In k l \/ In k (dict_keys (MAEnv.observations r)).
Proof.
  induction l as [|a l IH]; intros Hincl Hmap r Hk.
  - exists r. simpl. split; [reflexivity|]. split; [assumption|]. tauto.
  - inversion Hmap as [|? ? Ha Hl]; subst.
    destruct (update_agent_OK e r A a) as (r1 & H1 & K1 & O1);
      [apply Hincl; left; reflexivity | assumption | assumption |].
    destruct (IH (fun x Hx => Hincl x (or_intror Hx)) Hl r1 K1) as (r' & H2 & K2 & O2).
    exists r'. simpl. rewrite H1. simpl. split; [exact H2|].
    split; [exact K2|]. intro k. rewrite O2, O1. simpl. intuition congruence.
Qed.

Lemma substep_OK (e : MAEnv.t Aviary) (r : MAEnv.returns Obs Any) :
  MAEnv.aviary e <> None ->
  Forall (fun a => dict_get (MAEnv.agent_name_mapping e) a <> None) (MAEnv.agents e) ->
  keyed (MAEnv.agents e) r ->
  exists e' r',
    substep (e, r) = OK (e', r') /\
    same_episode e e' /\
    keyed (MAEnv.agents e) r' /\
    forall k, In k (dict_keys (MAEnv.observations r')) <->
              In k (MAEnv.agents e) \/ In k (dict_keys (MAEnv.observations r)).
Proof.
  intros Hav Hmap Hk. unfold MAEnv.substep.
  destruct (MAEnv.aviary e) as [a|] eqn:Ea; [|congruence].
  set (e1 := MAEnv.with_episode e (Some (aviary_step a)) (MAEnv.step_count e)
                                (MAEnv.agents e)).
  destruct (agents_loop_OK e1 (MAEnv.agents e) (MAEnv.agents e)
              (incl_refl _) Hmap r Hk) as (r' & H & K & O).
  exists e1, r'. change (MAEnv.agents e1) with (MAEnv.agents e). rewrite H. simpl.
  split; [reflexivity|]. split; [|split; assumption].
  unfold same_episode. simpl. split; [discriminate|]. repeat split; reflexivity.
Qed.

Lemma same_episode_trans (e1 e2 e3 : MAEnv.t Aviary) :
  same_episode e1 e2 -> same_episode e2 e3 -> same_episode e1 e3.
Proof.
  unfold same_episode. intros (_ & A1 & B1 & C1 & D1 & E1 & F1 & G1)
                              (H & A2 & B2 & C2 & D2 & E2 & F2 & G2).
  split; [assumption|]. repeat split; congruence.
Qed.

Lemma repeatM_S {S} (n : nat) (f : S -> result S) (s : S) :
  MAEnv.repeatM (Datatypes.S n) f s = bind (f s) (MAEnv.repeatM n f).
Proof. reflexivity. Qed.

(** The substep loop: after at least one substep every live agent has an
    observation. *)
Lemma substeps_OK (n : nat) :
  forall (e : MAEnv.t Aviary) (r : MAEnv.returns Obs Any),
  MAEnv.aviary e <> None ->
  Forall (fun a => dict_get (MAEnv.agent_name_mapping e) a <> None) (MAEnv.agents e) ->
  keyed (MAEnv.agents e) r ->
  exists e' r',
    MAEnv.repeatM n substep (e, r) = OK (e', r') /\
    same_episode e e' /\
    keyed (MAEnv.agents e) r' /\
    forall k, In k (dict_keys (MAEnv.observations r')) <->
              ((1 <= n)%nat /\ In k (MAEnv.agents e)) \/
              In k (dict_keys (MAEnv.observations r)).
Proof.
  induction n as [|n IH]; intros e r Hav Hmap Hk.
  - exists e, r. simpl. split; [reflexivity|].
    split; [unfold same_episode; repeat split; auto|].
    split; [assumption|]. intro k. split; [tauto | intros [[H _]|H]; [lia | exact H]].
  - destruct (substep_OK e r Hav Hmap Hk) as (e1 & r1 & H1 & S1 & K1 & O1).
    pose proof S1 as (Hav1 & Ha1 & Hm1 & _).
    destruct (IH e1 r1) as (e' & r' & H2 & S2 & K2 & O2);
      [assumption | rewrite Ha1, Hm1; assumption | rewrite Ha1; assumption |].
    exists e', r'. rewrite repeatM_S, H1. simpl. split; [exact H2|].
    split; [eapply same_episode_trans; eassumption|].
    split; [rewrite <- Ha1; exact K2|].
    intro k. rewrite O2, O1, Ha1. split.
    + intros [[_ H]|[H|H]];
        [left; split; [lia | exact H] | left; split; [lia | exact H] | right; exact H].
    + intros [[_ H]|H]; [right; left; exact H | right; right; exact H].
Qed.

(** The list comprehension that culls the finished agents is a filter. *)
Lemma cull_OK (r : MAEnv.returns Obs Any) (A l : list string) :
  incl l A -> keyed A r ->
  forall acc,
  foldM (fun acc agent =>
           t0 <- dict_item (MAEnv.terminations r) agent ;;
           u0 <- dict_item (MAEnv.truncations r) agent ;;
           OK (if negb (t0 || u0) then acc ++ [agent] else acc)) l acc
  = OK (acc ++ filter (live r) l).
Proof.
  intros Hincl (_ & Kt & Ku & _).
  induction l as [|a l IH]; intro acc; simpl.
  - now rewrite app_nil_r.
  - assert (Ha : In a A) by (apply Hincl; left; reflexivity).
    destruct (dict_item_OK (MAEnv.terminations r) a) as (t0 & -> & Gt);
      [apply dict_get_keys, Kt, Ha|].
    destruct (dict_item_OK (MAEnv.truncations r) a) as (u0 & -> & Gu);
      [apply dict_get_keys, Ku, Ha|].
    simpl. rewrite IH by (intros x Hx; apply Hincl; right; exact Hx).
    unfold live at 2, flag. rewrite Gt, Gu.
    destruct (negb (t0 || u0)); [rewrite <- app_assoc|]; reflexivity.
Qed.

(** What [step] returns on a consistent environment. *)
Lemma step_returns (e : MAEnv.t Aviary) (actions : dict (list Q)) :
  wf_env e -> actions_ok e actions ->
  exists r e',
    step actions e = OK (r, e') /\
    keyed (MAEnv.agents e) r /\
    (forall k, In k (dict_keys (MAEnv.observations r)) <->
               (1 <= MAEnv.env_step_ratio e)%Z /\ In k (MAEnv.agents e)) /\
    MAEnv.agents e' = filter (live r) (MAEnv.agents e) /\
    MAEnv.step_count e' = (MAEnv.step_count e + 1)%Z /\
    MAEnv.agent_name_mapping e' = MAEnv.agent_name_mapping e /\
    MAEnv.past_actions e' = MAEnv.current_actions e /\
    (forall k i, dict_get (MAEnv.agent_name_mapping e) k = Some i ->
      nth_error (MAEnv.current_actions e') (Z.to_nat i) =
      match dict_get actions k with
      | Some v => Some (stored_row v (MAEnv.action_dim e))
      | None => option_map (map (fun x => x * 0))
                           (nth_error (MAEnv.current_actions e) (Z.to_nat i))
      end) /\
    wf_env e'.
Proof.
  intros Hwf Hact.
  destruct (dispatch_OK e actions Hwf Hact)
    as (e1 & Hd & Hav1 & Ha1 & Hm1 & Hc1 & Hr1 & Hdim1 & Hp1 & Hlen1 & Hrows1 & Hrow).
  destruct Hwf as (_ & Hinj & Hrange & Hags & _).
  unfold MAEnv.step. rewrite Hd. simpl.
  set (r0 := {| MAEnv.observations := [];
                MAEnv.rewards := dict_fromkeys (MAEnv.agents e1) 0;
                MAEnv.terminations := dict_fromkeys (MAEnv.agents e1) false;
                MAEnv.truncations := dict_fromkeys (MAEnv.agents e1) false;
                MAEnv.infos := dict_fromkeys (MAEnv.agents e1) [] |}).
  assert (K0 : keyed (MAEnv.agents e1) r0)
    by (unfold keyed, r0; simpl; repeat split; apply has_keys_fromkeys).
  destruct (substeps_OK (Z.to_nat (MAEnv.env_step_ratio e1)) e1 r0)
    as (e2 & r & H2 & S2 & K2 & O2);
    [assumption | rewrite Ha1, Hm1; assumption | assumption |].
  rewrite H2. simpl.
  destruct S2 as (Hav2 & Ha2 & Hm2 & Hcur2 & Hpast2 & Hcnt2 & _ & Hdim2).
  rewrite Ha2.
  rewrite (cull_OK r (MAEnv.agents e1) (MAEnv.agents e1) (incl_refl _) K2 []).
  simpl. exists r. eexists. split; [reflexivity|]. simpl.
  rewrite <- Ha1. split; [exact K2|]. split.
  - intro k. rewrite O2. unfold r0. simpl. rewrite Hr1. split.
    + intros [[H1 H3]|[]]. split; [lia | exact H3].
    + intros [H1 H3]. left. split; [lia | exact H3].
  - split; [reflexivity|]. split; [congruence|]. split; [congruence|].
    split; [congruence|]. split; [rewrite Hcur2; exact Hrow|].
    unfold wf_env. simpl. rewrite Hm2, Hm1, Hcur2, Hlen1, Hdim2, Hdim1.
    split; [exact Hav2|]. split; [exact Hinj|]. split; [exact Hrange|].
    split; [|exact Hrows1].
    rewrite Forall_forall in *. intros a Ha. apply filter_In in Ha.
    rewrite Ha1 in Ha. apply Hags. tauto.
Qed.

Lemma py_index_of_nth {A} (l : list A) (i : Z) (x : A) :
  (0 <= i)%Z -> nth_error l (Z.to_nat i) = Some x -> py_index l i = OK x.
Proof.
  intros Hi Hn.
  assert (Hlt : (Z.to_nat i < length l)%nat)
    by (apply nth_error_Some; congruence).
  destruct (py_index_nth l i) as (y & Hy & Hn'); [lia|]. congruence.
Qed.

(** ** Claims on the multi-agent step *)

(** C3: a call to [step] on a consistent environment with a non-empty
    live-agent list and a substep ratio of at least 1 returns, and each
    of the five returned mappings has exactly the agents live at the
    start of the call as its keys, those that terminate or truncate
    during the call included; the live agents after the call are the
    agents from before the call whose accumulated termination and
    truncation flags are both false, in their order, so the live set
    does not grow. *)
Theorem step_keys_are_live_agents (e : MAEnv.t Aviary) (actions : dict (list Q)) :
  wf_env e -> actions_ok e actions ->
  MAEnv.agents e <> [] ->
  (1 <= MAEnv.env_step_ratio e)%Z ->
  exists r e',
    step actions e = OK (r, e') /\
    has_keys (MAEnv.observations r) (MAEnv.agents e) /\
    has_keys (MAEnv.rewards r) (MAEnv.agents e) /\
    has_keys (MAEnv.terminations r) (MAEnv.agents e) /\
    has_keys (MAEnv.truncations r) (MAEnv.agents e) /\
    has_keys (MAEnv.infos r) (MAEnv.agents e) /\
    MAEnv.agents e' = filter (live r) (MAEnv.agents e) /\
    (forall a, In a (MAEnv.agents e') <->
               In a (MAEnv.agents e) /\
               flag (MAEnv.terminations r) a = false /\
               flag (MAEnv.truncations r) a = false) /\
    incl (MAEnv.agents e') (MAEnv.agents e).
Proof.
  intros Hwf Hact _ Hratio.
  destruct (step_returns e actions Hwf Hact)
    as (r & e' & Hs & (Kr & Kt & Ku & Ki) & Ko & Hag & _).
  exists r, e'. split; [exact Hs|].
  split; [intro k; rewrite Ko; tauto|].
  do 4 (split; [assumption|]). split; [exact Hag|]. split.
  - intro a. rewrite Hag, filter_In. unfold live.
    rewrite negb_true_iff, orb_false_iff. tauto.
  - rewrite Hag. apply incl_filter.
Qed.

(** C2, amended: [step] snapshots the action buffer as the past actions
    and then rebuilds it from the mapping of this call alone: the row of
    an agent named in the mapping holds the value submitted for it, and
    the row of every agent left out of the mapping is zero; so what is
    stored for one agent does not depend on what is submitted for
    another. *)
Theorem step_action_buffer (e : MAEnv.t Aviary) (actions : dict (list Q)) :
  wf_env e -> actions_ok e actions ->
  exists r e',
    step actions e = OK (r, e') /\
    MAEnv.past_actions e' = MAEnv.current_actions e /\
    forall k i, dict_get (MAEnv.agent_name_mapping e) k = Some i ->
      exists row,
        py_index (MAEnv.current_actions e') i = OK row /\
        match dict_get actions k with
        | Some v => row = stored_row v (MAEnv.action_dim e)
        | None => length row = MAEnv.action_dim e /\ Forall (fun x => x == 0) row
        end.
Proof.
  intros Hwf Hact.
  destruct (step_returns e actions Hwf Hact)
    as (r & e' & Hs & _ & _ & _ & _ & _ & Hpast & Hrow & _).
  exists r, e'. split; [exact Hs|]. split; [exact Hpast|].
  intros k i Hk. specialize (Hrow k i Hk).
  destruct Hwf as (_ & _ & Hrange & _ & Hrows).
  assert (Hi : (0 <= i < Z.of_nat (length (MAEnv.current_actions e)))%Z).
  { rewrite Forall_forall in Hrange. exact (Hrange (k, i) (dict_get_In _ _ _ Hk)). }
  destruct (dict_get actions k) as [v|].
  - exists (stored_row v (MAEnv.action_dim e)).
    split; [apply py_index_of_nth; [lia | exact Hrow] | reflexivity].
  - destruct (py_index_nth (MAEnv.current_actions e) i Hi) as (old & _ & Hold).
    rewrite Hold in Hrow. simpl in Hrow.
    exists (map (fun x => x * 0) old).
    split; [apply py_index_of_nth; [lia | exact Hrow]|]. split.
    + rewrite length_map. rewrite Forall_forall in Hrows. apply Hrows.
      eapply nth_error_In; eassumption.
    + apply Forall_map, Forall_forall. intros x _. ring.
Qed.

End Step.

(** ** Concrete runs of the environment *)

Ltac prove_wf_env :=
  unfold wf_env; simpl;
  repeat match goal with
         | |- (_ <= _ < _)%Z => simpl; lia
         | |- _ /\ _ => split
         | |- Some _ <> None => discriminate
         | |- NoDup _ => constructor
         | |- Forall _ _ => constructor
         | |- ~ In _ _ => simpl; intuition discriminate
         | |- _ = _ => reflexivity
         | |- _ <> None => simpl; discriminate
         end.

Lemma step_keys_are_live_agents_witness :
  exists e r e',
    example_episode 3 30 = OK e /\
    example_step agent_1_terminates
      [("uav_0"%string, [1; 1; 1; 1]); ("uav_1"%string, [0.5])] e = OK (r, e') /\
    has_keys (MAEnv.observations r) (MAEnv.agents e) /\
    has_keys (MAEnv.terminations r) (MAEnv.agents e) /\
    MAEnv.agents e' = filter (live r) (MAEnv.agents e).
Proof.
  destruct (example_episode 3 30) as [e|] eqn:E; [|discriminate E].
  assert (Hwf : wf_env e)
    by (vm_compute in E; injection E as <-; prove_wf_env).
  assert (Hact : actions_ok e
            [("uav_0"%string, [1; 1; 1; 1]); ("uav_1"%string, [0.5])]).
  { vm_compute in E; injection E as <-. unfold actions_ok; simpl. split.
    - repeat constructor; simpl; intuition discriminate.
    - repeat constructor; simpl; auto; discriminate. }
  assert (Hne : MAEnv.agents e <> [])
    by (vm_compute in E; injection E as <-; discriminate).
  assert (Hratio : (1 <= MAEnv.env_step_ratio e)%Z)
    by (vm_compute in E; injection E as <-; simpl; lia).
  destruct (@step_keys_are_live_agents unit Z Z (fun _ a => a) (fun a => a)
              index_observation agent_1_terminates e
              [("uav_0"%string, [1; 1; 1; 1]); ("uav_1"%string, [0.5])]
              Hwf Hact Hne Hratio)
    as (r & e' & Hs & Ko & _ & Kt & _ & _ & Hag & _).
  exists e, r, e'. split; [reflexivity|]. split; [exact Hs|].
  split; [exact Ko|]. split; [exact Kt | exact Hag].
Defined.

Lemma step_action_buffer_witness :
  exists e r e',
    example_episode 2 30 = OK e /\
    example_step quiet_outcome [("uav_0"%string, [1; 0; 0; 0.5])] e = OK (r, e') /\
    MAEnv.past_actions e' = MAEnv.current_actions e /\
    exists row,
      py_index (MAEnv.current_actions e') 1 = OK row /\
      length row = 4%nat /\ Forall (fun x => x == 0) row.
Proof.
  destruct (example_episode 2 30) as [e|] eqn:E; [|discriminate E].
  assert (Hwf : wf_env e)
    by (vm_compute in E; injection E as <-; prove_wf_env).
  assert (Hact : actions_ok e [("uav_0"%string, [1; 0; 0; 0.5])]).
  { vm_compute in E; injection E as <-. unfold actions_ok; simpl. split.
    - repeat constructor; simpl; intuition discriminate.
    - repeat constructor; simpl; auto; discriminate. }
  assert (Hk : dict_get (MAEnv.agent_name_mapping e) "uav_1" = Some 1%Z)
    by (vm_compute in E; injection E as <-; reflexivity).
  assert (Hd : MAEnv.action_dim e = 4%nat)
    by (vm_compute in E; injection E as <-; reflexivity).
  destruct (@step_action_buffer unit Z Z (fun _ a => a) (fun a => a)
              index_observation quiet_outcome e
              [("uav_0"%string, [1; 0; 0; 0.5])] Hwf Hact)
    as (r & e' & Hs & Hp & Hrow).
  exists e, r, e'. split; [reflexivity|]. split; [exact Hs|].
  split; [exact Hp|].
  destruct (Hrow "uav_1"%string 1%Z Hk) as (row & H1 & H2).
  exists row. split; [exact H1|]. simpl in H2. rewrite Hd in H2. exact H2.
Defined.

(** C2, as stated, fails: both agents of a two-agent episode submit an
    action; in the next call only ["uav_0"] does, and the row of
    ["uav_1"], live and left out of the mapping, no longer holds the
    action from before the call. *)
Lemma omitted_agent_slot_is_zeroed :
  exists e0 r1 e1 r2 e2 row,
    example_episode 2 30 = OK e0 /\
    example_step quiet_outcome
      [("uav_0"%string, [1; 1; 1; 1]); ("uav_1"%string, [0; 0.5; 0; 1])] e0
      = OK (r1, e1) /\
    In "uav_1"%string (MAEnv.agents e1) /\
    dict_get (MAEnv.agent_name_mapping e1) "uav_1" = Some 1%Z /\
    py_index (MAEnv.current_actions e1) 1 = OK [0; 0.5; 0; 1] /\
    dict_get [("uav_0"%string, [1; 0; 0; 0.5])] "uav_1" = None /\
    example_step quiet_outcome [("uav_0"%string, [1; 0; 0; 0.5])] e1 = OK (r2, e2) /\
    py_index (MAEnv.current_actions e2) 1 = OK row /\
    ~ vec_eq row [0; 0.5; 0; 1].
Proof.
  destruct (example_episode 2 30) as [e0|] eqn:E; [|discriminate E].
  vm_compute in E. injection E as <-.
  do 6 eexists.
  split; [reflexivity|].
  split; [vm_compute; reflexivity|].
  split; [simpl; auto|].
  split; [reflexivity|].
  split; [reflexivity|].
  split; [reflexivity|].
  split; [vm_compute; reflexivity|].
  split; [vm_compute; reflexivity|].
  intro H. inversion H as [|? ? ? ? _ H']; subst.
  inversion H' as [|? ? ? ? Hx _]; subst. vm_compute in Hx. discriminate Hx.
Qed.

(** C8: an agent rate of 200 Hz does not divide the 120 Hz physics rate,
    and the construction stops on a division by zero while it computes
    the suggestion for the message ([int(120 / 200)] is 0), not on the
    assertion that describes the constraint. *)
Theorem agent_hz_200_raises_zero_division :
  ~ valid_config (zeros_n3 2) (zeros_n3 2) "euler" 200 /\
  example_env 2 200 = Raise ZeroDivisionError /\
  ~ describes_constraint ZeroDivisionError.
Proof.
  split; [|split].
  - intros ((_ & H) & _). vm_compute in H. discriminate H.
  - vm_compute. reflexivity.
  - simpl. tauto.
Qed.

(** The end-to-end scenario of the specification: four agents, a substep
    ratio of 4 (30 Hz), a zero action for every agent, and an outcome
    hook that always returns [(False, False, 0.0, {})].  All four agents
    are in the returned mappings, every reward is 0, every flag is false,
    and the step counter has advanced by exactly 1. *)
Example four_agents_one_quiet_step :
  exists e r e',
    example_episode 4 30 = OK e /\
    MAEnv.env_step_ratio e = 4%Z /\
    example_step quiet_outcome
      (map (fun a => (a, [0; 0; 0; 0])) (MAEnv.possible_agents e)) e = OK (r, e') /\
    dict_keys (MAEnv.observations r) = ["uav_0"; "uav_1"; "uav_2"; "uav_3"]%string /\
    Forall (fun kv => snd kv == 0) (MAEnv.rewards r) /\
    Forall (fun kv => snd kv = false) (MAEnv.terminations r) /\
    Forall (fun kv => snd kv = false) (MAEnv.truncations r) /\
    dict_keys (MAEnv.rewards r) = dict_keys (MAEnv.observations r) /\
    dict_keys (MAEnv.terminations r) = dict_keys (MAEnv.observations r) /\
    dict_keys (MAEnv.truncations r) = dict_keys (MAEnv.observations r) /\
    dict_keys (MAEnv.infos r) = dict_keys (MAEnv.observations r) /\
    MAEnv.step_count e' = (MAEnv.step_count e + 1)%Z /\
    MAEnv.agents e' = MAEnv.agents e.
Proof.
  destruct (example_episode 4 30) as [e|] eqn:E; [|discriminate E].
  vm_compute in E. injection E as <-.
  do 3 eexists. split; [reflexivity|]. split; [reflexivity|].
  split; [vm_compute; reflexivity|]. split; [reflexivity|].
  split; [repeat constructor|].
  split; [repeat constructor|]. split; [repeat constructor|].
  repeat split; reflexivity.
Qed.

(** * Further properties of the code *)

(** ** The mixer and its saturation handling *)

Lemma mapM_length {A B} (f : A -> result B) (l : list A) (l' : list B) :
  mapM f l = OK l' -> length l' = length l.
Proof.
  revert l'. induction l as [|a l IH]; intros l' H; simpl in H.
  - injection H as <-. reflexivity.
  - inv_bind H. inv_bind H. injection H as <-. simpl. f_equal. now apply IH.
Qed.

Lemma mix_length (cmd pwm0 : list Q) :
  np_matmul Drone.motor_map cmd = OK pwm0 -> length pwm0 = 4%nat.
Proof. intro H. apply mapM_length in H. exact H. Qed.



(** X2.  A mixed array that is already within the limits passes through
    the saturation handling unchanged. *)
Theorem cmd2pwm_identity_within_limits (cmd pwm0 : list Q) :
  np_matmul Drone.motor_map cmd = OK pwm0 ->
  Forall in_limits pwm0 ->
  Drone.cmd2pwm cmd = OK pwm0.
Proof.
  intros Hm Hl. unfold Drone.cmd2pwm. rewrite Hm. simpl.
  assert (Hne : pwm0 <> []).
  { intro E. apply mix_length in Hm. subst. discriminate. }
  destruct (np_max_total _ Hne) as [high Hhigh]. rewrite Hhigh. simpl.
  destruct (np_max_spec _ _ Hhigh) as [Hin _].
  rewrite Forall_forall in Hl.
  assert (E1 : Qltb 1 high = false) by (apply Qltb_false; apply (Hl high Hin)).
  rewrite E1. simpl.
  destruct (np_min_total _ Hne) as [low Hlow]. rewrite Hlow. simpl.
  destruct (np_min_spec _ _ Hlow) as [Hin' _].
  assert (E2 : Qltb low 0.05 = false) by (apply Qltb_false; apply (Hl low Hin')).
  rewrite E2. reflexivity.
Qed.

Lemma cmd2pwm_identity_within_limits_witness :
  exists pwm0,
    np_matmul Drone.motor_map [0.1; 0; -0.1; 0.5] = OK pwm0 /\
    Drone.cmd2pwm [0.1; 0; -0.1; 0.5] = OK pwm0.
Proof.
  eexists. split; [reflexivity|].
  apply cmd2pwm_identity_within_limits.
  - reflexivity.
  - repeat constructor; vm_compute; discriminate.
Defined.

(** The saturation handling is one map, [saturate], applied to every
    entry of the mixed array. *)
Lemma cmd2pwm_as_map (cmd pwm0 : list Q) :
  np_matmul Drone.motor_map cmd = OK pwm0 ->
  exists high low,
    np_max pwm0 = OK high /\
    np_min (if Qltb 1 high then map (fun x => x / high) pwm0 else pwm0) = OK low /\
    Drone.cmd2pwm cmd = OK (map (saturate high low) pwm0).
Proof.
  intro Hm. unfold Drone.cmd2pwm. rewrite Hm. simpl.
  assert (Hne : pwm0 <> []).
  { intro E. apply mix_length in Hm. subst. discriminate. }
  destruct (np_max_total _ Hne) as [high Hhigh]. rewrite Hhigh. simpl.
  exists high.
  destruct (Qltb 1 high) eqn:E1.
  - apply Qltb_true in E1.
    rewrite (mapM_total (fun x => np_div x high) (fun x => x / high))
      by (apply Forall_forall; intros x _; apply np_div_OK; lra).
    simpl.
    assert (Hne1 : map (fun x => x / high) pwm0 <> [])
      by (destruct pwm0; [congruence | discriminate]).
    destruct (np_min_total _ Hne1) as [low Hlow]. rewrite !Hlow. simpl.
    exists low. split; [reflexivity|]. split; [reflexivity|].
    unfold saturate. apply Qltb_true in E1. rewrite E1.
    destruct (Qltb low 0.05) eqn:E2.
    + apply Qltb_true in E2. rewrite floor_shift_all by assumption.
      rewrite map_map. reflexivity.
    + reflexivity.
  - simpl. destruct (np_min_total _ Hne) as [low Hlow]. rewrite !Hlow. simpl.
    exists low. split; [reflexivity|]. split; [reflexivity|].
    unfold saturate. rewrite E1.
    destruct (Qltb low 0.05) eqn:E2.
    + apply Qltb_true in E2. now apply floor_shift_all.
    + now rewrite map_id.
Qed.

Lemma saturate_mono (high low x y : Q) :
  (x < y -> saturate high low x < saturate high low y) /\
  (x <= y -> saturate high low x <= saturate high low y).
Proof.
  unfold saturate.
  assert (S : (x < y -> (if Qltb 1 high then x / high else x) <
                        (if Qltb 1 high then y / high else y)) /\
              (x <= y -> (if Qltb 1 high then x / high else x) <=
                         (if Qltb 1 high then y / high else y))).
  { destruct (Qltb 1 high) eqn:E1; [|tauto].
    apply Qltb_true in E1.
    assert (P : 0 < / high) by (apply Qinv_lt_0_compat; lra).
    unfold Qdiv. split; intro L; nra. }
  destruct S as [S1 S2].
  destruct (Qltb low 0.05) eqn:E2; [|tauto].
  apply Qltb_true in E2. split; intro L.
  - apply shifted_mono; auto.
  - apply shifted_mono_le; auto.
Qed.



(** X4.  When the largest mixed pulse width exceeds 1.0, the largest
    pulse width after the saturation handling is exactly 1.0: the scaling
    puts it there and the floor shift keeps it there. *)
Theorem cmd2pwm_saturated_max_is_one (cmd pwm0 : list Q) (high : Q) :
  np_matmul Drone.motor_map cmd = OK pwm0 ->
  np_max pwm0 = OK high ->
  1 < high ->
  exists out m,
    Drone.cmd2pwm cmd = OK out /\ np_max out = OK m /\ m == 1.
Proof.
  intros Hm Hhigh H1.
  destruct (cmd2pwm_as_map cmd pwm0 Hm) as (high' & low & Hh & Hlow & Hc).
  assert (high' = high) by congruence. subst high'.
  assert (Hne : map (saturate high low) pwm0 <> []).
  { apply mix_length in Hm. destruct pwm0; discriminate. }
  destruct (np_max_total _ Hne) as [m Hmax].
  exists (map (saturate high low) pwm0), m.
  split; [exact Hc|]. split; [exact Hmax|].
  destruct (np_max_spec _ _ Hhigh) as [Hin Hall].
  destruct (np_max_spec _ _ Hmax) as [Hin' Hall'].
  assert (Hsat : saturate high low high == 1).
  { unfold saturate. apply Qltb_true in H1. rewrite H1. apply Qltb_true in H1.
    assert (E : high / high == 1) by (field; lra).
    destruct (Qltb low 0.05) eqn:E2; [|exact E].
    apply Qltb_true in E2. unfold shifted. rewrite E. field. lra. }
  rewrite Forall_forall in Hall, Hall'.
  apply in_map_iff in Hin'. destruct Hin' as (x & <- & Hx).
  pose proof (proj2 (saturate_mono high low x high) (Hall x Hx)) as A.
  pose proof (Hall' _ (in_map (saturate high low) _ _ Hin)) as B.
  lra.
Qed.

Lemma cmd2pwm_saturated_max_is_one_witness :
  exists out m,
    Drone.cmd2pwm [0.5; 0.2; 0; 2] = OK out /\ np_max out = OK m /\ m == 1.
Proof.
  eapply (cmd2pwm_saturated_max_is_one [0.5; 0.2; 0; 2]).
  - reflexivity.
  - reflexivity.
  - vm_compute. reflexivity.
Defined.

(** X5.  The mixer is invertible: the command is recovered from the mixed
    pulse widths by the transposed mixing matrix over 4; in particular
    the mean of the mixed pulse widths is the thrust command. *)
Theorem mixer_round_trip (p q r T : Q) :
  exists a b c d,
    np_matmul Drone.motor_map [p; q; r; T] = OK [a; b; c; d] /\
    (a - b + c - d) / 4 == p /\
    (- a + b + c - d) / 4 == q /\
    (a + b - c - d) / 4 == r /\
    (a + b + c + d) / 4 == T.
Proof.
  do 4 eexists. split; [reflexivity|]. unfold dot. simpl.
  repeat split; field.
Qed.

(** ** The motor model, in closed form *)




(** ** Construction, reset and mode changes of the vehicle *)

Lemma py_div_cases (a b : Q) :
  (b == 0 /\ py_div a b = Raise ZeroDivisionError) \/
  (~ b == 0 /\ py_div a b = OK (a / b)).
Proof.
  unfold py_div. destruct (Qeq_bool b 0) eqn:E.
  - left. split; [now apply Qeq_bool_eq | reflexivity].
  - right. split; [|reflexivity]. intro H. apply Qeq_eq_bool in H. congruence.
Qed.

(** X7.  [Drone.__init__] accepts exactly the configurations with a
    physics rate of 240, a non-zero control rate and a non-zero thrust
    constant: any other physics rate raises the [UserWarning] that names
    it, a zero control rate or thrust constant a [ZeroDivisionError]. *)
Theorem drone_init_accepts_iff (sqrt : Q -> Q) (hz : Q) (ctrl_hz : Z)
  (prm : Drone.params) (reading : list (list Q)) :
  ((exists d, Drone.__init__ sqrt hz ctrl_hz prm reading = OK d) <->
   hz == 240 /\ ctrl_hz <> 0%Z /\ ~ Drone.thrust_const prm == 0) /\
  (~ hz == 240 ->
   Drone.__init__ sqrt hz ctrl_hz prm reading = Raise (UserWarning (MsgPhysicsHz hz))) /\
  (hz == 240 -> ctrl_hz = 0%Z \/ Drone.thrust_const prm == 0 ->
   Drone.__init__ sqrt hz ctrl_hz prm reading = Raise ZeroDivisionError).
Proof.
  unfold Drone.__init__.
  destruct (Qeq_bool hz 240) eqn:E; simpl.
  - apply Qeq_bool_eq in E.
    destruct (py_div_cases 1 hz) as [[Z0 _]|[_ ->]]; [rewrite E in Z0; discriminate|].
    simpl.
    assert (Hc : inject_Z ctrl_hz == 0 <-> ctrl_hz = 0%Z).
    { unfold Qeq. simpl. lia. }
    assert (Hk : 4 * Drone.thrust_const prm == 0 <-> Drone.thrust_const prm == 0).
    { split; intro H; lra. }
    destruct (py_div_cases 1 (inject_Z ctrl_hz)) as [[Z1 ->]|[N1 ->]]; simpl.
    + split; [|split].
      * split; [intros [d H]; discriminate | intros (_ & H & _); tauto].
      * intro H; contradiction.
      * reflexivity.
    + destruct (py_div_cases (Drone.thrust_to_weight prm * 9.81)
                  (4 * Drone.thrust_const prm)) as [[Z2 ->]|[N2 ->]]; simpl.
      * split; [|split].
        -- split; [intros [d H]; discriminate | intros (_ & _ & H); tauto].
        -- intro H; contradiction.
        -- reflexivity.
      * split; [|split].
        -- split; [intros _; split; [exact E | tauto]|].
           intros _. unfold Drone.reset, Drone.set_mode. simpl. eauto.
        -- intro H; contradiction.
        -- intros _ [H|H]; tauto.
  - assert (N : ~ hz == 240).
    { intro H. apply Qeq_eq_bool in H. congruence. }
    split; [|split].
    + split; [intros [d H]; discriminate | intros (H & _); contradiction].
    + reflexivity.
    + intro H; contradiction.
Qed.

(** X8.  [reset] always returns.  It leaves the vehicle in mode 0 with a
    one-stage cascade of fresh controllers, zero motor speeds and pulse
    widths, the state just read, and an all-zero setpoint (the idle
    thrust of -1 that [set_mode(0)] presets is overwritten); the height
    controllers and the constants are as before. *)
Theorem reset_postcondition (reading : list (list Q)) (d : Drone.t) :
  exists d',
    Drone.reset reading d = OK d' /\
    Drone.mode d' = 0%Z /\
    Drone.setpoint d' = [0; 0; 0; 0] /\
    Drone.rpm d' = [0; 0; 0; 0] /\
    Drone.pwm d' = [0; 0; 0; 0] /\
    Drone.state d' = reading /\
    length (Drone.PIDs d') = 1%nat /\
    Forall PID.fresh (Drone.PIDs d') /\
    Drone.z_PIDs d' = Drone.z_PIDs d /\
    Drone.cfg d' = Drone.cfg d.
Proof.
  unfold Drone.reset, Drone.set_mode. simpl.
  eexists. split; [reflexivity|]. simpl.
  do 6 (split; [reflexivity|]).
  split; [repeat constructor; apply reset_fresh | split; reflexivity].
Qed.

(** X9.  For every integer mode, [set_mode] returns on a 4x3 state: it
    stores the mode tag, leaves every controller of [self.PIDs] fresh,
    and never touches the constants, the height controllers, the state,
    the motor speeds or the pulse widths. *)
Theorem set_mode_frame
  (d : Drone.t) (m : Z) (ang_vel lin_vel : list Q) (r p yaw x y z : Q) :
  Drone.state d = [ang_vel; [r; p; yaw]; lin_vel; [x; y; z]] ->
  exists d',
    Drone.set_mode m d = OK d' /\
    Drone.mode d' = m /\
    Forall PID.fresh (Drone.PIDs d') /\
    Drone.cfg d' = Drone.cfg d /\
    Drone.z_PIDs d' = Drone.z_PIDs d /\
    Drone.state d' = Drone.state d /\
    Drone.rpm d' = Drone.rpm d /\
    Drone.pwm d' = Drone.pwm d.
Proof.
  intro Hs.
  assert (Hsp : exists sp, Drone.preset_setpoint m d = OK sp).
  { unfold Drone.preset_setpoint. rewrite Hs.
    destruct (m =? 0)%Z; [eauto|].
    destruct ((m =? 1) || (m =? 5) || (m =? 6))%Z; [eauto|].
    destruct (m =? 7)%Z; simpl; eexists; reflexivity. }
  destruct Hsp as [sp Hsp]. unfold Drone.set_mode. rewrite Hsp. simpl.
  eexists. split; [reflexivity|]. simpl.
  split; [reflexivity|].
  split; [apply Forall_map, Forall_forall; intros c _; apply reset_fresh|].
  repeat split; reflexivity.
Qed.

Lemma set_mode_frame_witness :
  exists d d',
    example_drone = OK d /\
    Drone.set_mode (-3) d = OK d' /\
    Drone.mode d' = (-3)%Z /\
    Drone.z_PIDs d' = Drone.z_PIDs d /\
    Drone.rpm d' = Drone.rpm d.
Proof.
  destruct example_drone as [d|] eqn:E; [|discriminate E].
  destruct (init_motor_constants _ _ _ _ _ _ E) as (_ & _ & _ & _ & _ & _ & Hs).
  destruct (set_mode_frame d (-3) [0; 0; 0] [0; 0; 0] 0 0 0.4 2 3 1.5 Hs)
    as (d' & H1 & H2 & _ & _ & H5 & _ & H7 & _).
  exists d, d'. repeat split; assumption.
Defined.

(** X10.  With a mode tag outside 0..7, [update_control] raises
    [TypeError] whatever the rest of the vehicle holds: neither cascade
    runs, and the command cannot be assembled from [None]. *)
Theorem update_control_unknown_mode (cos sin : Q -> Q) (d : Drone.t) :
  (Drone.mode d < 0 \/ 7 < Drone.mode d)%Z ->
  Drone.update_control cos sin d = Raise TypeError.
Proof.
  intro Hm. unfold Drone.update_control.
  assert (E : forall k, (0 <= k <= 7)%Z -> (Drone.mode d =? k)%Z = false)
    by (intros k Hk; apply Z.eqb_neq; lia).
  rewrite !E by lia. reflexivity.
Qed.

Lemma update_control_unknown_mode_witness :
  exists d,
    example_drone = OK d /\
    Drone.update_control id_fun id_fun (Drone.with_mode d 9) = Raise TypeError.
Proof.
  destruct example_drone as [d|] eqn:E; [|discriminate E].
  exists d. split; [reflexivity|].
  apply update_control_unknown_mode. simpl. lia.
Defined.

(** ** The control tick *)









Ltac by_length :=
  repeat match goal with
         | H : length ?l = _ |- _ =>
             is_var l; destruct l as [|? [|? [|? [|? [|? ?]]]]];
             simpl in H; try discriminate H; clear H
         end.

Ltac by_rows :=
  repeat match goal with
         | H : Forall _ (_ :: _) |- _ => inversion H; clear H; subst
         | H : Forall _ [] |- _ => clear H
         | H : Forall2 _ (_ :: _) _ |- _ => inversion H; clear H; subst
         | H : Forall2 _ [] _ |- _ => inversion H; clear H; subst
         end.

Ltac by_pid :=
  repeat match goal with
         | H : pid_dim _ ?c |- _ =>
             is_var c; destruct c;
             unfold pid_dim, stage_dim in H; simpl in H;
             destruct H as ((? & ? & ? & ?) & ? & ?)
         end.

Lemma set_mode_makes_ready (d : Drone.t) (m : Z) :
  quad_gains d -> state_4x3 (Drone.state d) -> (0 <= m <= 7)%Z ->
  exists d', Drone.set_mode m d = OK d' /\ tick_ready d'.
Proof.
  intros Hg [Hs1 Hs2] Hm.
  destruct d as [c zp ps st sp0 r w md]. destruct c.
  unfold quad_gains, stage_dim in Hg; simpl in Hg.
  destruct Hg as ((G1 & G2 & G3 & G4) & (G5 & G6 & G7 & G8) &
                  (G9 & G10 & G11 & G12) & (G13 & G14 & G15 & G16) &
                  zv & zpos & Hz & Hzv & Hzp).
  simpl in *. subst zp. by_length. by_rows. by_length.
  each_mode Hm;
    (eexists; split; [reflexivity|];
     unfold tick_ready; simpl;
     split; [lia|];
     split; [repeat constructor|];
     split; [exists zv, zpos; auto | auto]).
Qed.

(** X12.  Entering a mode in 0..7 on a vehicle whose gains have the
    dimensions of a quadrotor parameter file makes the vehicle ready for
    the control loop: the cascade of the mode is in place with
    controllers of the right dimensions, and the preset setpoint has
    three or four components. *)
Theorem set_mode_tick_ready (d : Drone.t) (m : Z) :
  quad_gains d -> state_4x3 (Drone.state d) -> (0 <= m <= 7)%Z ->
  exists d', Drone.set_mode m d = OK d' /\ tick_ready d'.
Proof. exact (set_mode_makes_ready d m). Qed.

Lemma set_mode_tick_ready_witness :
  exists d d', example_drone = OK d /\ Drone.set_mode 6 d = OK d' /\ tick_ready d'.
Proof.
  destruct example_drone as [d|] eqn:E; [|discriminate E].
  assert (Hg : quad_gains d).
  { vm_compute in E. injection E as <-.
    unfold quad_gains, stage_dim. simpl.
    repeat split; try reflexivity.
    do 2 eexists. split; [reflexivity|]. repeat split; reflexivity. }
  assert (Hs : state_4x3 (Drone.state d)).
  { vm_compute in E. injection E as <-. split; [reflexivity|].
    repeat constructor. }
  destruct (set_mode_tick_ready d 6 Hg Hs) as (d' & H1 & H2); [lia|].
  exists d, d'. split; [reflexivity|]. split; assumption.
Defined.










(** ** Forces, torques and drag *)

(** X14.  With non-negative drag constants, [update_drag] requests, on
    the base link, a force and a torque whose every component is
    non-positive, whatever the signs of the velocities, and the same ones
    for a velocity and its opposite; when the vehicle touches anything it
    requests nothing. *)
Theorem update_drag_sign_blind (d : Drone.t) (lin_vel ang_vel : list Q)
  (contacts : nat) :
  0 <= Drone.drag_const_xyz (Drone.cfg d) ->
  0 <= Drone.drag_const_pqr (Drone.cfg d) ->
  (contacts <> 0%nat -> Drone.update_drag d lin_vel ang_vel contacts = []) /\
  exists f t,
    Drone.update_drag d lin_vel ang_vel 0 =
      [Drone.applyExternalForce (-1) f [0; 0; 0];
       Drone.applyExternalTorque (-1) t] /\
    length f = length lin_vel /\ length t = length ang_vel /\
    Forall (fun x => x <= 0) f /\ Forall (fun x => x <= 0) t /\
    exists f' t',
      Drone.update_drag d (map Qopp lin_vel) (map Qopp ang_vel) 0 =
        [Drone.applyExternalForce (-1) f' [0; 0; 0];
         Drone.applyExternalTorque (-1) t'] /\
      vec_eq f' f /\ vec_eq t' t.
Proof.
  intros Hx Hp. split.
  - intro Hc. unfold Drone.update_drag.
    destruct contacts; [congruence | reflexivity].
  - unfold Drone.update_drag. simpl.
    do 2 eexists. split; [reflexivity|].
    split; [apply length_map|]. split; [apply length_map|].
    split; [|split].
    + apply Forall_map, Forall_forall. intros v _.
      assert (0 <= v * v) by nra. nra.
    + apply Forall_map, Forall_forall. intros v _.
      assert (0 <= v * v) by nra. nra.
    + do 2 eexists. split; [reflexivity|]. unfold vec_eq. split.
      * rewrite map_map. induction lin_vel; simpl; constructor; [ring | assumption].
      * rewrite map_map. induction ang_vel; simpl; constructor; [ring | assumption].
Qed.

Lemma update_drag_sign_blind_witness :
  exists d f t,
    example_drone = OK d /\
    Drone.update_drag d [1; -2; 0] [0; 0; -1] 0 =
      [Drone.applyExternalForce (-1) f [0; 0; 0];
       Drone.applyExternalTorque (-1) t] /\
    Forall (fun x => x <= 0) f /\ Forall (fun x => x <= 0) t.
Proof.
  destruct example_drone as [d|] eqn:E; [|discriminate E].
  assert (Hx : 0 <= Drone.drag_const_xyz (Drone.cfg d))
    by (vm_compute in E; injection E as <-; vm_compute; discriminate).
  assert (Hp : 0 <= Drone.drag_const_pqr (Drone.cfg d))
    by (vm_compute in E; injection E as <-; vm_compute; discriminate).
  destruct (update_drag_sign_blind d [1; -2; 0] [0; 0; -1] 0 Hx Hp)
    as (_ & f & t & H1 & _ & _ & H2 & H3 & _).
  exists d, f, t. split; [reflexivity|]. split; [exact H1|].
  split; assumption.
Defined.

(** X15.  On four motor speeds, [rpm2forces] requests one force and one
    torque per motor, on links 0 to 3 in order, each along the link's z
    axis whatever noise is drawn; the thrust on motor [i] is
    [kf * rpm_i^2] and the torque [km * rpm_i^2], positive on motors 0
    and 1 and negative on motors 2 and 3, each scaled by one plus the
    noise ratio times its draw. *)
Theorem rpm2forces_along_z (d : Drone.t) (noise_thr noise_tor : nat -> nat -> Q)
  (r0 r1 r2 r3 : Q) :
  exists calls,
    Drone.rpm2forces d noise_thr noise_tor [r0; r1; r2; r3] = OK calls /\
    map link_of calls = [0; 0; 1; 1; 2; 2; 3; 3]%Z /\
    Forall (fun c => along_z (vector_of c)) calls /\
    let kf := Drone.kf (Drone.cfg d) in
    let km := Drone.km (Drone.cfg d) in
    let nr := Drone.noise_ratio (Drone.cfg d) in
    Forall2 (fun c z => nth 2 (vector_of c) 0 == z) calls
      [kf * (r0 * r0) * (1 + noise_thr 0%nat 2%nat * nr);
       km * (r0 * r0) * (1 + noise_tor 0%nat 2%nat * nr);
       kf * (r1 * r1) * (1 + noise_thr 1%nat 2%nat * nr);
       km * (r1 * r1) * (1 + noise_tor 1%nat 2%nat * nr);
       kf * (r2 * r2) * (1 + noise_thr 2%nat 2%nat * nr);
       - (km * (r2 * r2) * (1 + noise_tor 2%nat 2%nat * nr));
       kf * (r3 * r3) * (1 + noise_thr 3%nat 2%nat * nr);
       - (km * (r3 * r3) * (1 + noise_tor 3%nat 2%nat * nr))].
Proof.
  eexists. split; [reflexivity|]. simpl.
  split; [reflexivity|]. split.
  - repeat constructor; simpl; ring.
  - repeat constructor; simpl; ring.
Qed.

(** A number of motor speeds other than 4 or 1 does not broadcast against
    the four spin directions. *)
Lemma rpm2forces_shape_error (d : Drone.t) (noise_thr noise_tor : nat -> nat -> Q)
  (rpm : list Q) :
  length rpm <> 4%nat -> length rpm <> 1%nat ->
  Drone.rpm2forces d noise_thr noise_tor rpm = Raise ValueError.
Proof.
  intros H4 H1. unfold Drone.rpm2forces, Drone.outer, Drone.thr_coeff,
    Drone.tor_coeff, Drone.scale_rows. simpl.
  rewrite !length_map.
  destruct rpm as [|a [|b [|c [|e [|f rest]]]]]; simpl in *;
    try reflexivity; congruence.
Qed.

(** ** The constructor of the environment *)


Lemma py_int_quot (a : Z) (p : positive) :
  py_int (inject_Z a / inject_Z (Zpos p)) = Z.quot a (Zpos p).
Proof.
  unfold py_int, Qdiv, Qinv, Qmult, inject_Z. simpl.
  rewrite Z.mul_1_r. reflexivity.
Qed.

(** X17.  For an agent rate between 1 and 120 that does not divide 120,
    the two rates the error message suggests are
    [120 / (120 / agent_hz + 1)] and [120 / (120 / agent_hz)] (integer
    divisions), and they bracket the rejected rate: the first is below
    it, the second at or above it. *)
Theorem env_init_hint_brackets (Aviary : Type) (render_modes : list string)
  (start_pos start_orn : ndarray) (assisted : bool) (dome dur : Q)
  (angle : string) (hz : Z) (render : option string) :
  (1 <= hz <= 120)%Z -> (120 mod hz <> 0)%Z ->
  exists lowest highest,
    MAEnv.__init__ Aviary render_modes start_pos start_orn assisted dome dur
                   angle hz render
      = Raise (AssertionError (MsgAgentHz lowest highest)) /\
    lowest = (120 / (120 / hz + 1))%Z /\
    highest = (120 / (120 / hz))%Z /\
    (lowest < hz <= highest)%Z.
Proof.
  intros Hr Hm. unfold MAEnv.__init__, py_mod.
  destruct (hz =? 0)%Z eqn:E; [apply Z.eqb_eq in E; lia|]. simpl.
  pose proof Hm as Hm'. apply Z.eqb_neq in Hm'. rewrite Hm'. simpl.
  rewrite py_div_inject_Z by lia. simpl.
  destruct hz as [|p|p]; try lia.
  change 120 with (inject_Z 120). rewrite py_int_quot.
  rewrite Z.quot_div_nonneg by lia.
  assert (Q1 : (1 <= 120 / Z.pos p)%Z) by (apply Z.div_le_lower_bound; lia).
  rewrite !py_div_inject_Z by lia. simpl.
  destruct (120 / Z.pos p + 1)%Z as [|a|a] eqn:Ea; try lia.
  destruct (120 / Z.pos p)%Z as [|b|b] eqn:Eb; try lia.
  rewrite !py_int_quot. rewrite !Z.quot_div_nonneg by lia.
  do 2 eexists. split; [reflexivity|]. split; [reflexivity|].
  split; [reflexivity|].
  assert (S1 : (Z.pos b * Z.pos p <= 120)%Z).
  { rewrite <- Eb. rewrite Z.mul_comm. apply Z.mul_div_le. lia. }
  assert (S2 : (120 < Z.pos p * Z.pos a)%Z).
  { assert (Z.pos a = Z.succ (120 / Z.pos p))%Z by lia.
    rewrite H. apply Z.mul_succ_div_gt. lia. }
  split.
  - apply Z.div_lt_upper_bound; lia.
  - apply Z.div_le_lower_bound; lia.
Qed.

Lemma env_init_hint_brackets_witness :
  example_env 2 7 = Raise (AssertionError (MsgAgentHz 6 7)).
Proof.
  destruct (env_init_hint_brackets unit ["human"%string] (zeros_n3 2) (zeros_n3 2)
              true 150 60 "euler" 7 None) as (lo & hi & H & -> & -> & _).
  - lia.
  - vm_compute. discriminate.
  - exact H.
Defined.

(** What the constructor stores. *)
Lemma env_init_fields (Aviary : Type) render_modes start_pos start_orn
  assisted dome dur angle hz render (e : MAEnv.t Aviary) :
  MAEnv.__init__ Aviary render_modes start_pos start_orn assisted dome dur
                 angle hz render = OK e ->
  exists n,
    np_len start_pos = OK n /\
    MAEnv.num_possible_agents e = n /\
    MAEnv.possible_agents e = map MAEnv.agent_name (seq 0 n) /\
    MAEnv.agent_name_mapping e =
      combine (map MAEnv.agent_name (seq 0 n)) (map Z.of_nat (seq 0 n)) /\
    MAEnv.action_dim e = (if assisted then 4 else 6)%nat /\
    MAEnv.current_actions e = repeat (np_zeros (MAEnv.action_dim e)) n /\
    MAEnv.past_actions e = repeat (np_zeros (MAEnv.action_dim e)) n /\
    MAEnv.env_step_ratio e = py_int (120 / inject_Z hz) /\
    MAEnv.max_steps e = py_int (inject_Z hz * dur) /\
    MAEnv.aviary e = None.
Proof.
  unfold MAEnv.__init__. intro H.
  do 10 inv_bind H. rename x8 into n. injection H as <-.
  assert (Hq : x7 = 120 / inject_Z hz).
  { unfold py_div in E7. destruct (Qeq_bool (inject_Z hz) 0); [discriminate|].
    now injection E7 as <-. }
  exists n. simpl. split; [exact E8|]. split; [reflexivity|].
  split; [reflexivity|].
  split; [rewrite length_map, length_seq; apply dict_zip_combine, agent_names_NoDup|].
  split; [reflexivity|]. split; [reflexivity|]. split; [reflexivity|].
  split; [rewrite Hq; reflexivity|]. split; reflexivity.
Qed.

Lemma dict_get_combine {V} (keys : list string) (values : list V) (r : nat)
  (k : string) (v : V) :
  NoDup keys -> nth_error keys r = Some k -> nth_error values r = Some v ->
  dict_get (combine keys values) k = Some v.
Proof.
  intro Hnd. revert values r.
  induction Hnd as [|k0 keys Hk Hnd IH]; intros values r Hr Hv.
  - destruct r; discriminate.
  - destruct values as [|v0 values]; [destruct r; discriminate|].
    destruct r as [|r]; simpl in *.
    + injection Hr as ->. injection Hv as ->. now rewrite String.eqb_refl.
    + destruct (String.eqb k0 k) eqn:E.
      * apply String.eqb_eq in E. subst. exfalso. apply Hk.
        eapply nth_error_In; eauto.
      * eapply IH; eauto.
Qed.

Lemma nth_error_combine {A B} (l1 : list A) (l2 : list B) (r : nat) (a : A) (b : B) :
  nth_error l1 r = Some a -> nth_error l2 r = Some b ->
  nth_error (combine l1 l2) r = Some (a, b).
Proof.
  revert l2 r. induction l1 as [|x l1 IH]; intros l2 r H1 H2;
    [destruct r; discriminate|].
  destruct l2 as [|y l2]; [destruct r; discriminate|].
  destruct r as [|r]; simpl in *; [congruence | auto].
Qed.

(** X18.  The roster of a constructed environment: one agent per row of
    [start_pos], named ["uav_0"], ["uav_1"], ... in order and without
    repetition; the name mapping sends the [r]-th name to [r], so looking
    an agent up by name and then by index gives the agent back; both
    action buffers hold one zero row per agent, of 4 entries with
    assisted flight and 6 without. *)
Theorem env_init_roster (Aviary : Type) render_modes start_pos start_orn
  assisted dome dur angle hz render (e : MAEnv.t Aviary) :
  MAEnv.__init__ Aviary render_modes start_pos start_orn assisted dome dur
                 angle hz render = OK e ->
  exists n,
    np_len start_pos = OK n /\
    length (MAEnv.possible_agents e) = n /\
    NoDup (MAEnv.possible_agents e) /\
    (forall r, (r < n)%nat ->
       nth_error (MAEnv.possible_agents e) r = Some (MAEnv.agent_name r) /\
       dict_get (MAEnv.agent_name_mapping e) (MAEnv.agent_name r) = Some (Z.of_nat r)) /\
    (forall k i, dict_get (MAEnv.agent_name_mapping e) k = Some i ->
       nth_error (MAEnv.possible_agents e) (Z.to_nat i) = Some k) /\
    MAEnv.current_actions e = repeat (repeat 0 (if assisted then 4 else 6)%nat) n /\
    MAEnv.past_actions e = repeat (repeat 0 (if assisted then 4 else 6)%nat) n.
Proof.
  intro H. destruct (env_init_fields _ _ _ _ _ _ _ _ _ _ _ H)
    as (n & Hn & _ & Hp & Hm & Hd & Hc & Hpast & _).
  exists n. split; [exact Hn|].
  assert (Hnames : forall r, (r < n)%nat ->
            nth_error (map MAEnv.agent_name (seq 0 n)) r = Some (MAEnv.agent_name r)).
  { intros r Hr. rewrite nth_error_map, nth_error_seq.
    destruct (Nat.ltb_spec r n); [reflexivity | lia]. }
  assert (Hidx : forall r, (r < n)%nat ->
            nth_error (map Z.of_nat (seq 0 n)) r = Some (Z.of_nat r)).
  { intros r Hr. rewrite nth_error_map, nth_error_seq.
    destruct (Nat.ltb_spec r n); [reflexivity | lia]. }
  rewrite Hp, Hm, Hc, Hpast, Hd.
  split; [rewrite length_map, length_seq; reflexivity|].
  split; [apply agent_names_NoDup|].
  split; [|split; [|split; reflexivity]].
  - intros r Hr. split; [now apply Hnames|].
    eapply dict_get_combine; [apply agent_names_NoDup | now apply Hnames | now apply Hidx].
  - intros k i Hk. apply dict_get_In in Hk.
    apply In_nth_error in Hk. destruct Hk as [r Hr].
    assert (Hlt : (r < n)%nat).
    { assert (L : (r < length (combine (map MAEnv.agent_name (seq 0 n))
                                       (map Z.of_nat (seq 0 n))))%nat)
        by (apply nth_error_Some; congruence).
      rewrite length_combine, !length_map, length_seq in L. lia. }
    assert (Hpair : nth_error (combine (map MAEnv.agent_name (seq 0 n))
                                       (map Z.of_nat (seq 0 n))) r
                    = Some (MAEnv.agent_name r, Z.of_nat r)).
    { apply nth_error_combine; [now apply Hnames | now apply Hidx]. }
    rewrite Hpair in Hr. injection Hr as <- <-.
    rewrite Nat2Z.id. now apply Hnames.
Qed.

Lemma env_init_roster_witness :
  exists e,
    example_env 3 30 = OK e /\
    MAEnv.possible_agents e = ["uav_0"; "uav_1"; "uav_2"]%string /\
    dict_get (MAEnv.agent_name_mapping e) "uav_2" = Some 2%Z.
Proof.
  destruct (example_env 3 30) as [e|] eqn:E; [|discriminate E].
  unfold example_env in E.
  destruct (env_init_roster _ _ _ _ _ _ _ _ _ _ _ E)
    as (n & Hn & _ & _ & Hr & _).
  assert (n = 3%nat) by (vm_compute in Hn; congruence). subst n.
  exists e. split; [reflexivity|]. split.
  - vm_compute in E. injection E as <-. reflexivity.
  - destruct (Hr 2%nat) as [_ H2]; [lia|]. exact H2.
Defined.

(** X19.  In a constructed environment the substep ratio times the agent
    rate is exactly 120: a positive rate gives a ratio between 1 and 120,
    and a negative rate that divides 120, which the constructor accepts
    too, gives a negative ratio. *)
Theorem env_init_step_ratio (Aviary : Type) render_modes start_pos start_orn
  assisted dome dur angle hz render (e : MAEnv.t Aviary) :
  MAEnv.__init__ Aviary render_modes start_pos start_orn assisted dome dur
                 angle hz render = OK e ->
  (MAEnv.env_step_ratio e * hz = 120)%Z /\
  (0 < hz -> 1 <= MAEnv.env_step_ratio e <= 120)%Z /\
  (hz < 0 -> MAEnv.env_step_ratio e < 0)%Z.
Proof.
  intro H. pose proof (init_OK_valid_config _ _ _ _ _ _ _ _ _ _ _ H)
    as ((Hz & Hmod) & _).
  destruct (env_init_fields _ _ _ _ _ _ _ _ _ _ _ H)
    as (n & _ & _ & _ & _ & _ & _ & _ & Hr & _).
  rewrite Hr.
  assert (Hq : py_int (120 / inject_Z hz) = Z.quot 120 hz).
  { destruct hz as [|p|p]; [congruence | |].
    - change 120 with (inject_Z 120). apply py_int_quot.
    - unfold py_int, Qdiv, Qinv, Qmult, inject_Z. simpl.
      change (Z.neg p) with (- Z.pos p)%Z.
      rewrite Z.quot_opp_r by lia. rewrite <- Z.quot_opp_l by lia.
      reflexivity. }
  rewrite Hq.
  assert (Hdiv : (hz | 120)%Z) by (apply Z.mod_divide; assumption).
  destruct Hdiv as [k Hk].
  assert (Hquot : Z.quot 120 hz = k) by (rewrite Hk; apply Z.quot_mul; assumption).
  rewrite Hquot. split; [lia|]. split; intro Hs; nia.
Qed.

Lemma env_init_step_ratio_witness :
  exists e, example_env 2 (-30) = OK e /\ MAEnv.env_step_ratio e = (-4)%Z.
Proof.
  destruct (example_env 2 (-30)) as [e|] eqn:E; [|discriminate E].
  unfold example_env in E.
  destruct (env_init_step_ratio _ _ _ _ _ _ _ _ _ _ _ E) as (H & _).
  exists e. split; [reflexivity | lia].
Defined.

(** ** The stepping loop *)

Lemma with_episode_eta {Aviary} (e : MAEnv.t Aviary) :
  MAEnv.with_episode e (MAEnv.aviary e) (MAEnv.step_count e) (MAEnv.agents e) = e.
Proof. destruct e; reflexivity. Qed.

Lemma foldM_OK_each {A S} (f : S -> A -> result S) (l : list A) (s s' : S) (a : A) :
  foldM f l s = OK s' -> In a l -> exists s1 s2, f s1 a = OK s2.
Proof.
  revert s. induction l as [|b l IH]; intros s H Hin; [contradiction|].
  simpl in H. inv_bind H. destruct Hin as [->|Hin]; eauto.
Qed.

Lemma iter_shift {A} (f : A -> A) (n : nat) (a : A) :
  Nat.iter n f (f a) = f (Nat.iter n f a).
Proof. induction n as [|n IH]; simpl; congruence. Qed.

Section StepMore.

Variables Aviary Obs Any : Type.
Variable set_all_setpoints : list (list Q) -> Aviary -> Aviary.
Variable aviary_step : Aviary -> Aviary.
Variable compute_observation_by_id : MAEnv.t Aviary -> Z -> Obs.
Variable compute_term_trunc_reward_info_by_id :
  MAEnv.t Aviary -> Z -> bool * bool * Q * dict Any.

Abbreviation dispatch' := (MAEnv.dispatch set_all_setpoints).
Abbreviation update_agent' :=
  (MAEnv.update_agent compute_observation_by_id
                      compute_term_trunc_reward_info_by_id).
Abbreviation substep' :=
  (MAEnv.substep aviary_step compute_observation_by_id
                 compute_term_trunc_reward_info_by_id).
Abbreviation step' :=
  (MAEnv.step set_all_setpoints aviary_step compute_observation_by_id
              compute_term_trunc_reward_info_by_id).

Lemma substep_inv (e e' : MAEnv.t Aviary) (r r' : MAEnv.returns Obs Any) :
  substep' (e, r) = OK (e', r') ->
  MAEnv.aviary e <> None /\
  e' = tick_env aviary_step e /\
  foldM (update_agent' e') (MAEnv.agents e) r = OK r'.
Proof.
  unfold MAEnv.substep, tick_env. intro H.
  destruct (MAEnv.aviary e) as [a|]; [|discriminate].
  inv_bind H. injection H as <- <-.
  split; [discriminate|]. split; [reflexivity | exact E].
Qed.

Lemma env_after_aviary (n : nat) (e : MAEnv.t Aviary) (a : Aviary) :
  MAEnv.aviary e = Some a ->
  env_after aviary_step n e =
  MAEnv.with_episode e (Some (Nat.iter n aviary_step a))
                     (MAEnv.step_count e) (MAEnv.agents e).
Proof.
  revert e a. induction n as [|n IH]; intros e a Ha.
  - simpl. rewrite <- Ha. symmetry. apply with_episode_eta.
  - simpl. unfold tick_env at 1. rewrite Ha.
    rewrite (IH _ (aviary_step a)) by reflexivity.
    destruct e; unfold MAEnv.with_episode; simpl.
    rewrite iter_shift. reflexivity.
Qed.

Lemma substeps_inv (n : nat) (e e' : MAEnv.t Aviary) (r r' : MAEnv.returns Obs Any) :
  MAEnv.repeatM n substep' (e, r) = OK (e', r') ->
  e' = env_after aviary_step n e.
Proof.
  revert e r. induction n as [|n IH]; intros e r H.
  - simpl in H. injection H as <- <-. reflexivity.
  - rewrite repeatM_S in H. inv_bind H. destruct x as [e1 r1].
    apply substep_inv in E. destruct E as (_ & -> & _).
    simpl. eapply IH. exact H.
Qed.

Lemma step_inv (actions : dict (list Q))
  (e e' : MAEnv.t Aviary) (r : MAEnv.returns Obs Any) :
  step' actions e = OK (r, e') ->
  exists a,
    MAEnv.aviary e = Some a /\
    MAEnv.aviary e' =
      Some (Nat.iter (Z.to_nat (MAEnv.env_step_ratio e)) aviary_step
                     (set_all_setpoints (MAEnv.current_actions e') a)) /\
    e' = MAEnv.with_episode
           (MAEnv.with_actions e (MAEnv.current_actions e') (MAEnv.current_actions e))
           (MAEnv.aviary e') (MAEnv.step_count e + 1)%Z (MAEnv.agents e') /\
    incl (MAEnv.agents e') (MAEnv.agents e).
Proof.
  unfold MAEnv.step. intro H.
  inv_bind H. rename x into e1. rename E into Hd.
  inv_bind H. destruct x as [e2 r2]. rename E into Hs.
  inv_bind H. rename x into alive. rename E into Hc. injection H as <- <-.
  unfold MAEnv.dispatch in Hd. inv_bind Hd. rename x into cur.
  destruct (MAEnv.aviary e) as [a|] eqn:Ea; [|discriminate].
  injection Hd as <-. exists a. split; [reflexivity|].
  apply substeps_inv in Hs. simpl in Hs.
  rewrite (env_after_aviary _ _ (set_all_setpoints cur a)) in Hs by reflexivity.
  subst e2. simpl. split; [reflexivity|]. split.
  - destruct e; reflexivity.
  - simpl in Hc. clear - Hc.
    assert (G : forall l acc out,
               foldM (fun acc agent =>
                        t0 <- dict_item (MAEnv.terminations r2) agent ;;
                        u0 <- dict_item (MAEnv.truncations r2) agent ;;
                        OK (if negb (t0 || u0) then acc ++ [agent] else acc)) l acc
               = OK out -> forall x, In x out -> In x acc \/ In x l).
    { induction l as [|b l IH]; intros acc out H x Hx; simpl in H.
      - injection H as <-. auto.
      - apply bind_OK in H. destruct H as (acc' & E & H).
        assert (Hacc : forall y, In y acc' -> In y acc \/ y = b).
        { apply bind_OK in E. destruct E as (t0 & _ & E).
          apply bind_OK in E. destruct E as (u0 & _ & E).
          injection E as <-. intros y Hy.
          destruct (negb (t0 || u0)); [|auto].
          apply in_app_or in Hy. simpl in Hy. intuition congruence. }
        destruct (IH _ _ H x Hx) as [Hi|Hi]; [|simpl; auto].
        destruct (Hacc _ Hi); simpl; auto. }
    intros x Hx. destruct (G _ _ _ Hc x Hx) as [[]|Hi]. exact Hi.
Qed.

(** X20.  Whenever [step] returns, the simulation has been handed the new
    action buffer once and then advanced exactly [env_step_ratio] times
    (not at all for a ratio below 1); the step counter has advanced by
    one; the past buffer holds the buffer from before the call; and
    nothing else of the environment has changed but the action buffer
    and the live agents, which are among the earlier ones. *)
Theorem step_environment_effect (actions : dict (list Q))
  (e e' : MAEnv.t Aviary) (r : MAEnv.returns Obs Any) :
  step' actions e = OK (r, e') ->
  exists a,
    MAEnv.aviary e = Some a /\
    MAEnv.aviary e' =
      Some (Nat.iter (Z.to_nat (MAEnv.env_step_ratio e)) aviary_step
                     (set_all_setpoints (MAEnv.current_actions e') a)) /\
    e' = MAEnv.with_episode
           (MAEnv.with_actions e (MAEnv.current_actions e') (MAEnv.current_actions e))
           (MAEnv.aviary e') (MAEnv.step_count e + 1)%Z (MAEnv.agents e') /\
    incl (MAEnv.agents e') (MAEnv.agents e).
Proof. exact (step_inv actions e e' r). Qed.

(** X21.  Before [begin_reset] has attached a simulation, [step] raises
    on every action mapping. *)
Theorem step_before_reset_raises (actions : dict (list Q)) (e : MAEnv.t Aviary) :
  MAEnv.aviary e = None ->
  exists err, step' actions e = Raise err.
Proof.
  intro Hn. destruct (step' actions e) as [[r e']|err] eqn:E; [|eauto].
  unfold MAEnv.step in E. inv_bind E.
  unfold MAEnv.dispatch in E0. inv_bind E0. rewrite Hn in E0. discriminate.
Qed.

(** X22.  An action for a name that is not in the name mapping is never
    ignored: [step] raises. *)
Theorem step_unknown_agent_raises (actions : dict (list Q)) (e : MAEnv.t Aviary)
  (k : string) :
  In k (dict_keys actions) ->
  dict_get (MAEnv.agent_name_mapping e) k = None ->
  exists err, step' actions e = Raise err.
Proof.
  intros Hin Hk. destruct (step' actions e) as [[r e']|err] eqn:E; [|eauto].
  exfalso. unfold MAEnv.step in E. inv_bind E.
  unfold MAEnv.dispatch in E0. inv_bind E0.
  unfold dict_keys in Hin. apply in_map_iff in Hin.
  destruct Hin as ([k' v] & Hk' & Hin). simpl in Hk'. subst k'.
  destruct (foldM_OK_each _ _ _ _ _ E1 Hin) as (s1 & s2 & Hf).
  simpl in Hf. unfold dict_item in Hf. rewrite Hk in Hf. discriminate.
Qed.


Lemma dict_get_set {V} (d : dict V) (k k' : string) (v : V) :
  dict_get (dict_set d k v) k' =
  if String.eqb k k' then Some v else dict_get d k'.
Proof.
  induction d as [|[k0 v0] d IH]; simpl; [reflexivity|].
  destruct (String.eqb k0 k) eqn:E0; simpl.
  - apply String.eqb_eq in E0. subst k0.
    destruct (String.eqb k k'); reflexivity.
  - rewrite IH. destruct (String.eqb k0 k') eqn:E1; [|reflexivity].
    apply String.eqb_eq in E1. subst k0.
    rewrite String.eqb_sym, E0. reflexivity.
Qed.

Lemma dict_get_fromkeys {V} (A : list string) (v : V) (a : string) :
  In a A -> dict_get (dict_fromkeys A v) a = Some v.
Proof.
  unfold dict_fromkeys.
  assert (G : forall (l : list string) (d : dict V),
             In a l \/ dict_get d a = Some v ->
             dict_get (fold_left (fun d k => dict_set d k v) l d) a = Some v).
  { induction l as [|b l IH]; intros d H; simpl.
    - destruct H as [[]|H]; exact H.
    - apply IH. rewrite dict_get_set.
      destruct (String.eqb b a) eqn:E; [auto|].
      apply String.eqb_neq in E. destruct H as [[H|H]|H]; [congruence | auto | auto]. }
  intro H. apply G. auto.
Qed.

(** One agent's update, on the values: the outcome of the hook is folded
    into the agent's entries, the observation is replaced, and no other
    agent's entry changes. *)
Lemma update_agent_view (e : MAEnv.t Aviary) (r : MAEnv.returns Obs Any)
  (ag : string) (i : Z) (acc : bool * bool * Q * dict Any) :
  dict_get (MAEnv.agent_name_mapping e) ag = Some i ->
  agent_view r ag = Some acc ->
  exists r',
    update_agent' e r ag = OK r' /\
    agent_view r' ag =
      Some (fold_outcome acc (compute_term_trunc_reward_info_by_id e i)) /\
    dict_get (MAEnv.observations r') ag = Some (compute_observation_by_id e i) /\
    forall a, a <> ag ->
      agent_view r' a = agent_view r a /\
      dict_get (MAEnv.observations r') a = dict_get (MAEnv.observations r) a.
Proof.
  intros Hi Hv. unfold agent_view in Hv.
  destruct (dict_get (MAEnv.terminations r) ag) as [t0|] eqn:Et; [|discriminate].
  destruct (dict_get (MAEnv.truncations r) ag) as [u0|] eqn:Eu; [|discriminate].
  destruct (dict_get (MAEnv.rewards r) ag) as [w0|] eqn:Ew; [|discriminate].
  destruct (dict_get (MAEnv.infos r) ag) as [i0|] eqn:Ei; [|discriminate].
  injection Hv as <-.
  unfold MAEnv.update_agent, dict_item. rewrite Hi. simpl.
  destruct (compute_term_trunc_reward_info_by_id e i) as [[[t u] w] info].
  rewrite Et, Eu, Ew, Ei. simpl.
  eexists. split; [reflexivity|]. unfold agent_view. simpl.
  rewrite !dict_get_set, !String.eqb_refl.
  split; [reflexivity|]. split; [reflexivity|].
  intros a Ha. rewrite !dict_get_set.
  apply String.eqb_neq in Ha. rewrite String.eqb_sym in Ha. rewrite Ha.
  split; reflexivity.
Qed.

Lemma agents_loop_view (e : MAEnv.t Aviary) (l : list string) :
  NoDup l ->
  forall r : MAEnv.returns Obs Any,
  (forall a, In a l ->
     dict_get (MAEnv.agent_name_mapping e) a <> None /\ agent_view r a <> None) ->
  exists r',
    foldM (update_agent' e) l r = OK r' /\
    (forall a i acc, In a l ->
       dict_get (MAEnv.agent_name_mapping e) a = Some i ->
       agent_view r a = Some acc ->
       agent_view r' a =
         Some (fold_outcome acc (compute_term_trunc_reward_info_by_id e i)) /\
       dict_get (MAEnv.observations r') a = Some (compute_observation_by_id e i)) /\
    (forall a, ~ In a l ->
       agent_view r' a = agent_view r a /\
       dict_get (MAEnv.observations r') a = dict_get (MAEnv.observations r) a).
Proof.
  induction 1 as [|b l Hb Hnd IH]; intros r Hall.
  - exists r. simpl. split; [reflexivity|]. split; [contradiction | auto].
  - destruct (Hall b (or_introl eq_refl)) as [Hm Hv].
    destruct (dict_get (MAEnv.agent_name_mapping e) b) as [ib|] eqn:Eib; [|congruence].
    destruct (agent_view r b) as [accb|] eqn:Evb; [|congruence].
    destruct (update_agent_view e r b ib accb Eib Evb) as (r1 & H1 & V1 & O1 & F1).
    destruct (IH r1) as (r' & H2 & V2 & F2).
    { intros a Ha. destruct (Hall a (or_intror Ha)) as [Hma Hva].
      split; [exact Hma|].
      assert (a <> b) by (intro; subst; contradiction).
      rewrite (proj1 (F1 a H)). exact Hva. }
    exists r'. simpl. rewrite H1. simpl. split; [exact H2|]. split.
    + intros a i acc [<-|Ha] Hi Hacc.
      * destruct (F2 b Hb) as [Fv Fo]. rewrite Fv, Fo, V1, O1.
        assert (i = ib) by congruence. assert (acc = accb) by congruence.
        subst. auto.
      * assert (Hab : a <> b) by (intro; subst; contradiction).
        destruct (F1 a Hab) as [Fv _].
        apply (V2 a i acc Ha Hi). rewrite Fv. exact Hacc.
    + intros a Ha. simpl in Ha.
      assert (Hab : a <> b) by (intro; subst; tauto).
      assert (Hal : ~ In a l) by tauto.
      destruct (F2 a Hal) as [Fv Fo]. destruct (F1 a Hab) as [Fv1 Fo1].
      split; congruence.
Qed.

(** The substep loop, on the values. *)
Lemma substeps_view (n : nat) :
  forall (e : MAEnv.t Aviary) (r : MAEnv.returns Obs Any),
  MAEnv.aviary e <> None ->
  NoDup (MAEnv.agents e) ->
  (forall a, In a (MAEnv.agents e) ->
     dict_get (MAEnv.agent_name_mapping e) a <> None /\ agent_view r a <> None) ->
  exists e' r',
    MAEnv.repeatM n substep' (e, r) = OK (e', r') /\
    forall a i acc, In a (MAEnv.agents e) ->
      dict_get (MAEnv.agent_name_mapping e) a = Some i ->
      agent_view r a = Some acc ->
      agent_view r' a =
        Some (fold_outcomes aviary_step compute_term_trunc_reward_info_by_id
                            n e i acc) /\
      dict_get (MAEnv.observations r') a =
        match n with
        | O => dict_get (MAEnv.observations r) a
        | S _ => Some (compute_observation_by_id (env_after aviary_step n e) i)
        end.
Proof.
  induction n as [|n IH]; intros e r Hav Hnd Hall.
  - exists e, r. simpl. split; [reflexivity|]. auto.
  - destruct (MAEnv.aviary e) as [av|] eqn:Ea; [|congruence].
    set (e1 := tick_env aviary_step e).
    assert (He1 : e1 = MAEnv.with_episode e (Some (aviary_step av))
                         (MAEnv.step_count e) (MAEnv.agents e))
      by (unfold e1, tick_env; rewrite Ea; reflexivity).
    assert (Hag : MAEnv.agents e1 = MAEnv.agents e) by (rewrite He1; reflexivity).
    assert (Hmp : MAEnv.agent_name_mapping e1 = MAEnv.agent_name_mapping e)
      by (rewrite He1; reflexivity).
    destruct (agents_loop_view e1 (MAEnv.agents e) Hnd r) as (r1 & H1 & V1 & _).
    { rewrite Hmp. exact Hall. }
    destruct (IH e1 r1) as (e' & r' & H2 & V2).
    { rewrite He1. discriminate. }
    { rewrite Hag. exact Hnd. }
    { rewrite Hag, Hmp. intros a Ha. destruct (Hall a Ha) as [Hm Hv].
      split; [exact Hm|].
      destruct (dict_get (MAEnv.agent_name_mapping e) a) as [i|] eqn:Ei; [|congruence].
      destruct (agent_view r a) as [acc|] eqn:Eacc; [|congruence].
      rewrite <- Hmp in Ei.
      destruct (V1 a i acc Ha Ei Eacc) as [-> _]. discriminate. }
    exists e', r'. rewrite repeatM_S.
    assert (Hs : substep' (e, r) = OK (e1, r1)).
    { unfold MAEnv.substep. rewrite Ea.
      change (MAEnv.agents (MAEnv.with_episode e (Some (aviary_step av))
                              (MAEnv.step_count e) (MAEnv.agents e)))
        with (MAEnv.agents e).
      rewrite <- He1, H1. reflexivity. }
    rewrite Hs. simpl. split; [exact H2|].
    intros a i acc Ha Hi Hacc.
    rewrite <- Hmp in Hi. destruct (V1 a i acc Ha Hi Hacc) as [Va Oa].
    rewrite <- Hag in Ha.
    destruct (V2 a i _ Ha Hi Va) as [Va2 Oa2].
    split; [exact Va2|].
    rewrite Oa2. destruct n; [exact Oa | reflexivity].
Qed.

(** X23.  What [step] returns for each live agent, with the live agents
    distinct: the termination and truncation flags are the disjunction,
    the reward the sum and the info the merge of the hook's outcomes over
    the substeps, each taken after the simulation tick of its substep,
    and the observation is the one computed after the last substep. *)
Theorem step_accumulates (actions : dict (list Q)) (e : MAEnv.t Aviary) :
  wf_env e -> actions_ok e actions -> NoDup (MAEnv.agents e) ->
  exists e1 r e',
    dispatch' actions e = OK e1 /\
    step' actions e = OK (r, e') /\
    forall a i, In a (MAEnv.agents e) ->
      dict_get (MAEnv.agent_name_mapping e) a = Some i ->
      agent_view r a =
        Some (fold_outcomes aviary_step compute_term_trunc_reward_info_by_id
                (Z.to_nat (MAEnv.env_step_ratio e)) e1 i (false, false, 0, [])) /\
      ((1 <= MAEnv.env_step_ratio e)%Z ->
       dict_get (MAEnv.observations r) a =
         Some (compute_observation_by_id
                 (env_after aviary_step (Z.to_nat (MAEnv.env_step_ratio e)) e1) i)).
Proof.
  intros Hwf Hact Hnd.
  destruct (dispatch_OK _ set_all_setpoints e actions Hwf Hact)
    as (e1 & Hd & Hav1 & Ha1 & Hm1 & _ & Hr1 & _).
  destruct Hwf as (_ & _ & _ & Hags & _).
  pose (r0 := {| MAEnv.observations := [];
                 MAEnv.rewards := dict_fromkeys (MAEnv.agents e1) 0;
                 MAEnv.terminations := dict_fromkeys (MAEnv.agents e1) false;
                 MAEnv.truncations := dict_fromkeys (MAEnv.agents e1) false;
                 MAEnv.infos := dict_fromkeys (MAEnv.agents e1) [] |}
              : MAEnv.returns Obs Any).
  assert (K0 : keyed (MAEnv.agents e1) r0)
    by (unfold keyed, r0; simpl; repeat split; apply has_keys_fromkeys).
  assert (V0 : forall a, In a (MAEnv.agents e1) ->
                 agent_view r0 a = Some (false, false, 0, [])).
  { intros a Ha. unfold agent_view, r0. simpl.
    rewrite !dict_get_fromkeys by assumption. reflexivity. }
  assert (Hmap1 : Forall (fun a => dict_get (MAEnv.agent_name_mapping e1) a <> None)
                         (MAEnv.agents e1))
    by (rewrite Ha1, Hm1; exact Hags).
  destruct (substeps_OK _ _ _ aviary_step compute_observation_by_id
              compute_term_trunc_reward_info_by_id
              (Z.to_nat (MAEnv.env_step_ratio e1)) e1 r0 Hav1 Hmap1 K0)
    as (e2 & r & H2 & S2 & K2 & _).
  destruct (substeps_view (Z.to_nat (MAEnv.env_step_ratio e1)) e1 r0)
    as (e2' & r2' & H2' & V2).
  { exact Hav1. }
  { rewrite Ha1. exact Hnd. }
  { intros a Ha. split.
    - rewrite Forall_forall in Hmap1. apply Hmap1, Ha.
    - rewrite V0 by assumption. discriminate. }
  rewrite H2 in H2'. injection H2' as <- <-.
  destruct S2 as (_ & Ha2 & _).
  exists e1, r. eexists. split; [exact Hd|]. split.
  - unfold MAEnv.step. rewrite Hd. simpl.
    fold r0. rewrite H2. simpl. rewrite Ha2.
    rewrite (cull_OK _ _ r (MAEnv.agents e1) (MAEnv.agents e1) (incl_refl _) K2 []).
    reflexivity.
  - intros a i Ha Hi. rewrite <- Ha1 in Ha. rewrite <- Hm1 in Hi.
    destruct (V2 a i _ Ha Hi (V0 a Ha)) as [Va Oa].
    rewrite Hr1 in Va, Oa. split; [exact Va|].
    intro Hratio. rewrite Oa.
    destruct (Z.to_nat (MAEnv.env_step_ratio e)) eqn:En; [lia | reflexivity].
Qed.

(** X24.  With a substep ratio below 1 (an agent rate below zero), a call
    to [step] on a consistent environment returns without advancing the
    simulation: no observation is returned, every live agent stays live,
    and only the action buffers and the step counter change. *)
Theorem step_without_substeps (actions : dict (list Q)) (e : MAEnv.t Aviary) :
  wf_env e -> actions_ok e actions ->
  (MAEnv.env_step_ratio e <= 0)%Z ->
  exists r e' a,
    step' actions e = OK (r, e') /\
    MAEnv.observations r = [] /\
    MAEnv.agents e' = MAEnv.agents e /\
    MAEnv.aviary e = Some a /\
    MAEnv.aviary e' = Some (set_all_setpoints (MAEnv.current_actions e') a) /\
    MAEnv.step_count e' = (MAEnv.step_count e + 1)%Z.
Proof.
  intros Hwf Hact Hratio.
  destruct (dispatch_OK _ set_all_setpoints e actions Hwf Hact)
    as (e1 & Hd & Hav1 & Ha1 & Hm1 & Hc1 & Hr1 & _).
  assert (Hn : Z.to_nat (MAEnv.env_step_ratio e1) = 0%nat) by lia.
  pose (r0 := {| MAEnv.observations := [];
                 MAEnv.rewards := dict_fromkeys (MAEnv.agents e1) 0;
                 MAEnv.terminations := dict_fromkeys (MAEnv.agents e1) false;
                 MAEnv.truncations := dict_fromkeys (MAEnv.agents e1) false;
                 MAEnv.infos := dict_fromkeys (MAEnv.agents e1) [] |}
              : MAEnv.returns Obs Any).
  assert (K0 : keyed (MAEnv.agents e1) r0)
    by (unfold keyed, r0; simpl; repeat split; apply has_keys_fromkeys).
  assert (Hlive : filter (live r0) (MAEnv.agents e1) = MAEnv.agents e1).
  { apply forallb_filter_id. apply forallb_forall.
    intros x Hx. unfold live, flag, r0. simpl.
    rewrite !dict_get_fromkeys by assumption. reflexivity. }
  assert (Hs : step' actions e =
               OK (r0, MAEnv.with_episode e1 (MAEnv.aviary e1)
                         (MAEnv.step_count e1 + 1)%Z (MAEnv.agents e1))).
  { unfold MAEnv.step. rewrite Hd. simpl. fold r0. rewrite Hn.
    cbn [MAEnv.repeatM bind].
    rewrite (cull_OK _ _ r0 (MAEnv.agents e1) (MAEnv.agents e1) (incl_refl _) K0 []).
    simpl. rewrite Hlive. reflexivity. }
  destruct (step_inv actions e _ _ Hs) as (a & Ha & Hav & _ & _).
  rewrite Hr1 in Hn. rewrite Hn in Hav. simpl in Hav.
  exists r0. eexists. exists a. split; [exact Hs|]. simpl.
  split; [reflexivity|]. split; [exact Ha1|]. split; [exact Ha|].
  split; [exact Hav | congruence].
Qed.

(** Episode-long invariants. *)
Lemma run_steps_invariants (calls : list (dict (list Q))) :
  forall e : MAEnv.t Aviary,
  wf_env e -> Forall (actions_ok e) calls ->
  exists e',
    run_steps step' calls e = OK e' /\
    wf_env e' /\
    incl (MAEnv.agents e') (MAEnv.agents e) /\
    MAEnv.step_count e' = (MAEnv.step_count e + Z.of_nat (length calls))%Z /\
    MAEnv.agent_name_mapping e' = MAEnv.agent_name_mapping e /\
    MAEnv.possible_agents e' = MAEnv.possible_agents e.
Proof.
  induction calls as [|a calls IH]; intros e Hwf Hall.
  - exists e. simpl. split; [reflexivity|]. split; [assumption|].
    split; [apply incl_refl|]. split; [lia|]. split; reflexivity.
  - inversion Hall as [|? ? Ha Hrest]; subst.
    destruct (step_returns _ _ _ set_all_setpoints aviary_step
                compute_observation_by_id compute_term_trunc_reward_info_by_id
                e a Hwf Ha) as (r & e1 & Hs & _ & _ & _ & Hc & Hm & _ & _ & Hwf1).
    destruct (step_inv a e e1 r Hs) as (av & _ & _ & He1 & Hincl).
    assert (Hdim : MAEnv.action_dim e1 = MAEnv.action_dim e)
      by (rewrite He1; reflexivity).
    assert (Hposs : MAEnv.possible_agents e1 = MAEnv.possible_agents e)
      by (rewrite He1; reflexivity).
    destruct (IH e1 Hwf1) as (e' & Hr & Hwf' & Hi' & Hc' & Hm' & Hp').
    { revert Hrest. apply Forall_impl. intros x (Hx1 & Hx2).
      unfold actions_ok. rewrite Hm, Hdim. split; assumption. }
    exists e'. simpl. rewrite Hs. simpl. split; [exact Hr|].
    split; [exact Hwf'|].
    split; [intros x Hx; apply Hincl, Hi', Hx|].
    split; [rewrite Hc', Hc; lia|]. split; congruence.
Qed.

(** X25.  Over any number of calls to [step] on a consistent environment,
    each with an action mapping whose keys are agent names, every call
    returns; the live agents at the end are among those at the start, the
    step counter has advanced by the number of calls, and the roster and
    the name mapping are untouched. *)
Theorem run_steps_live_set_shrinks (calls : list (dict (list Q)))
  (e : MAEnv.t Aviary) :
  wf_env e -> Forall (actions_ok e) calls ->
  exists e',
    run_steps step' calls e = OK e' /\
    wf_env e' /\
    incl (MAEnv.agents e') (MAEnv.agents e) /\
    MAEnv.step_count e' = (MAEnv.step_count e + Z.of_nat (length calls))%Z /\
    MAEnv.agent_name_mapping e' = MAEnv.agent_name_mapping e /\
    MAEnv.possible_agents e' = MAEnv.possible_agents e.
Proof. exact (run_steps_invariants calls e). Qed.

End StepMore.

(** ** Concrete runs of the stepping loop *)

Lemma step_environment_effect_witness :
  exists e r e',
    example_episode 2 30 = OK e /\
    example_step quiet_outcome [("uav_1"%string, [0.5])] e = OK (r, e') /\
    exists a,
      MAEnv.aviary e = Some a /\
      MAEnv.aviary e' =
        Some (Nat.iter (Z.to_nat (MAEnv.env_step_ratio e)) (fun a => a)
                       ((fun _ a => a) (MAEnv.current_actions e') a)) /\
      e' = MAEnv.with_episode
             (MAEnv.with_actions e (MAEnv.current_actions e') (MAEnv.current_actions e))
             (MAEnv.aviary e') (MAEnv.step_count e + 1)%Z (MAEnv.agents e') /\
      incl (MAEnv.agents e') (MAEnv.agents e).
Proof.
  destruct (example_episode 2 30) as [e|] eqn:E; [|discriminate E].
  destruct (example_step quiet_outcome [("uav_1"%string, [0.5])] e)
    as [[r e']|err] eqn:Hs;
    [|vm_compute in E; injection E as <-; vm_compute in Hs; discriminate Hs].
  exists e, r, e'. split; [reflexivity|]. split; [exact Hs|].
  exact (step_environment_effect unit Z Z (fun _ a => a) (fun a => a)
           index_observation quiet_outcome _ e e' r Hs).
Defined.

Lemma step_before_reset_raises_witness :
  exists e,
    example_env 2 30 = OK e /\
    MAEnv.aviary e = None /\
    exists err, example_step quiet_outcome [] e = Raise err.
Proof.
  destruct (example_env 2 30) as [e|] eqn:E; [|discriminate E].
  assert (Hav : MAEnv.aviary e = None)
    by (vm_compute in E; injection E as <-; reflexivity).
  exists e. split; [reflexivity|]. split; [exact Hav|].
  exact (step_before_reset_raises unit Z Z (fun _ a => a) (fun a => a)
           index_observation quiet_outcome [] e Hav).
Defined.

Lemma step_unknown_agent_raises_witness :
  exists e,
    example_episode 2 30 = OK e /\
    dict_get (MAEnv.agent_name_mapping e) "uav_9" = None /\
    exists err,
      example_step quiet_outcome [("uav_9"%string, [0; 0; 0; 0])] e = Raise err.
Proof.
  destruct (example_episode 2 30) as [e|] eqn:E; [|discriminate E].
  assert (Hk : dict_get (MAEnv.agent_name_mapping e) "uav_9" = None)
    by (vm_compute in E; injection E as <-; reflexivity).
  exists e. split; [reflexivity|]. split; [exact Hk|].
  apply (step_unknown_agent_raises unit Z Z (fun _ a => a) (fun a => a)
           index_observation quiet_outcome
           [("uav_9"%string, [0; 0; 0; 0])] e "uav_9"%string).
  - simpl. auto.
  - exact Hk.
Defined.

Lemma step_accumulates_witness :
  exists e e1 r e',
    example_episode 3 30 = OK e /\
    MAEnv.dispatch (fun _ a => a)
      [("uav_0"%string, [1; 1; 1; 1]); ("uav_1"%string, [0.5])] e = OK e1 /\
    example_step agent_1_terminates
      [("uav_0"%string, [1; 1; 1; 1]); ("uav_1"%string, [0.5])] e = OK (r, e') /\
    forall a i, In a (MAEnv.agents e) ->
      dict_get (MAEnv.agent_name_mapping e) a = Some i ->
      agent_view r a =
        Some (fold_outcomes (fun a => a) agent_1_terminates
                (Z.to_nat (MAEnv.env_step_ratio e)) e1 i (false, false, 0, [])) /\
      ((1 <= MAEnv.env_step_ratio e)%Z ->
       dict_get (MAEnv.observations r) a =
         Some (index_observation
                 (env_after (fun a => a) (Z.to_nat (MAEnv.env_step_ratio e)) e1) i)).
Proof.
  destruct (example_episode 3 30) as [e|] eqn:E; [|discriminate E].
  assert (Hwf : wf_env e)
    by (vm_compute in E; injection E as <-; prove_wf_env).
  assert (Hact : actions_ok e
            [("uav_0"%string, [1; 1; 1; 1]); ("uav_1"%string, [0.5])]).
  { vm_compute in E; injection E as <-. unfold actions_ok; simpl. split.
    - repeat constructor; simpl; intuition discriminate.
    - repeat constructor; simpl; auto; discriminate. }
  assert (Hnd : NoDup (MAEnv.agents e)).
  { vm_compute in E; injection E as <-. simpl.
    repeat constructor; simpl; intuition discriminate. }
  destruct (step_accumulates unit Z Z (fun _ a => a) (fun a => a)
              index_observation agent_1_terminates
              [("uav_0"%string, [1; 1; 1; 1]); ("uav_1"%string, [0.5])]
              e Hwf Hact Hnd) as (e1 & r & e' & H).
  exists e, e1, r, e'. split; [reflexivity | exact H].
Defined.

Lemma step_without_substeps_witness :
  exists e r e' a,
    example_episode 2 (-30) = OK e /\
    (MAEnv.env_step_ratio e <= 0)%Z /\
    example_step agent_1_terminates [("uav_1"%string, [0.5])] e = OK (r, e') /\
    MAEnv.observations r = [] /\
    MAEnv.agents e' = MAEnv.agents e /\
    MAEnv.aviary e = Some a /\
    MAEnv.aviary e' = Some ((fun _ a => a) (MAEnv.current_actions e') a) /\
    MAEnv.step_count e' = (MAEnv.step_count e + 1)%Z.
Proof.
  destruct (example_episode 2 (-30)) as [e|] eqn:E; [|discriminate E].
  assert (Hwf : wf_env e)
    by (vm_compute in E; injection E as <-; prove_wf_env).
  assert (Hact : actions_ok e [("uav_1"%string, [0.5])]).
  { vm_compute in E; injection E as <-. unfold actions_ok; simpl. split.
    - repeat constructor; simpl; intuition discriminate.
    - repeat constructor; simpl; auto; discriminate. }
  assert (Hratio : (MAEnv.env_step_ratio e <= 0)%Z)
    by (vm_compute in E; injection E as <-; simpl; lia).
  destruct (step_without_substeps unit Z Z (fun _ a => a) (fun a => a)
              index_observation agent_1_terminates
              [("uav_1"%string, [0.5])] e Hwf Hact Hratio)
    as (r & e' & a & H).
  exists e, r, e', a. split; [reflexivity|]. split; [exact Hratio | exact H].
Defined.

Lemma run_steps_live_set_shrinks_witness :
  exists e e',
    example_episode 3 30 = OK e /\
    run_steps (example_step agent_1_terminates)
      [[("uav_0"%string, [1; 1; 1; 1])]; []; [("uav_2"%string, [0.5])]] e = OK e' /\
    wf_env e' /\
    incl (MAEnv.agents e') (MAEnv.agents e) /\
    MAEnv.step_count e' = (MAEnv.step_count e + 3)%Z /\
    MAEnv.agent_name_mapping e' = MAEnv.agent_name_mapping e /\
    MAEnv.possible_agents e' = MAEnv.possible_agents e.
Proof.
  destruct (example_episode 3 30) as [e|] eqn:E; [|discriminate E].
  assert (Hwf : wf_env e)
    by (vm_compute in E; injection E as <-; prove_wf_env).
  assert (Hact : Forall (actions_ok e)
            [[("uav_0"%string, [1; 1; 1; 1])]; []; [("uav_2"%string, [0.5])]]).
  { vm_compute in E; injection E as <-.
    repeat constructor; simpl; auto; try discriminate; intuition discriminate. }
  destruct (run_steps_live_set_shrinks unit Z Z (fun _ a => a) (fun a => a)
              index_observation agent_1_terminates _ e Hwf Hact) as (e' & H).
  exists e, e'. split; [reflexivity | exact H].
Defined.

(** ** Rotation matrices and forward vectors *)

Lemma batch_mul_map {A} (f g : A -> list (list Q)) (l : list A) :
  MAEnv.batch_mul (map f l) (map g l) = map (fun x => MAEnv.mat_mul (f x) (g x)) l.
Proof.
  unfold MAEnv.batch_mul. induction l as [|x l IH]; simpl; [reflexivity|].
  f_equal. exact IH.
Qed.

Lemma compute_rotation_forward_rows (cos sin : Q -> Q) (orn : list (list Q)) :
  MAEnv.compute_rotation_forward cos sin orn =
  (rows <- mapM (MAEnv.unit_rotation_forward cos sin) orn ;;
   OK (map (fun r => MAEnv.mat_mul (MAEnv.mat_mul (snd (fst r)) (snd (fst (fst r))))
                                   (fst (fst (fst r)))) rows,
       map (fun r => snd r) rows)).
Proof.
  unfold MAEnv.compute_rotation_forward, MAEnv._jitted_compute_unit_rotation_forward.
  destruct (mapM (MAEnv.unit_rotation_forward cos sin) orn) as [rows|err]; simpl;
    [|reflexivity].
  rewrite !batch_mul_map. reflexivity.
Qed.

(** Whatever holds of the matrix and the vector built from three angles
    holds of every pair that [compute_rotation_forward] returns. *)
Lemma compute_rotation_forward_each (cos sin : Q -> Q)
  (P : list (list Q) -> list Q -> Prop) :
  (forall a b c,
     P (MAEnv.mat_mul
          (MAEnv.mat_mul [[cos c; - sin c; 0]; [sin c; cos c; 0]; [0; 0; 1]]
                         [[cos b; 0; sin b]; [0; 1; 0]; [- sin b; 0; cos b]])
          [[1; 0; 0]; [0; cos a; - sin a]; [0; sin a; cos a]])
       [cos c * cos b; sin c * cos b; - sin b]) ->
  forall orn, Forall (fun o => length o = 3%nat) orn ->
  exists rot fwd,
    MAEnv.compute_rotation_forward cos sin orn = OK (rot, fwd) /\
    length rot = length orn /\
    Forall2 P rot fwd.
Proof.
  intros HP orn Hall. rewrite compute_rotation_forward_rows.
  induction Hall as [|o orn Ho _ IH].
  - exists [], []. simpl. repeat split. constructor.
  - destruct IH as (rot & fwd & H & Hlen & HF).
    destruct o as [|a [|b [|c [|]]]]; try discriminate Ho.
    destruct (mapM (MAEnv.unit_rotation_forward cos sin) orn) as [rows|err] eqn:E;
      [|discriminate H].
    simpl in H. injection H as <- <-.
    simpl mapM. rewrite E.
    change (MAEnv.unit_rotation_forward cos sin [a; b; c])
      with (OK ([[1; 0; 0]; [0; cos a; - sin a]; [0; sin a; cos a]],
                [[cos b; 0; sin b]; [0; 1; 0]; [- sin b; 0; cos b]],
                [[cos c; - sin c; 0]; [sin c; cos c; 0]; [0; 0; 1]],
                [cos c * cos b; sin c * cos b; - sin b])).
    cbn [bind map fst snd].
    eexists. eexists. split; [reflexivity|].
    split; [simpl; f_equal; exact Hlen|].
    constructor; [apply HP | exact HF].
Qed.

(** X26.  For orientations of shape [n, 3], [compute_rotation_forward]
    returns [n] matrices and [n] vectors, and each forward vector is the
    first column of its rotation matrix (the image of the body x axis),
    whatever the cosine and the sine are. *)
Theorem compute_rotation_forward_first_column (cos sin : Q -> Q)
  (orn : list (list Q)) :
  Forall (fun o => length o = 3%nat) orn ->
  exists rot fwd,
    MAEnv.compute_rotation_forward cos sin orn = OK (rot, fwd) /\
    length rot = length orn /\
    Forall2 (fun m f => vec_eq (MAEnv.mat_col m 0) f) rot fwd.
Proof.
  apply compute_rotation_forward_each. intros a b c.
  cbv [MAEnv.mat_mul MAEnv.mat_col dot zip_with map seq length hd nth fold_right].
  repeat constructor; ring.
Qed.

Lemma compute_rotation_forward_first_column_witness :
  exists rot fwd,
    MAEnv.compute_rotation_forward id_fun id_fun [[1; 2; 3]; [0; 1 # 2; -1]]
      = OK (rot, fwd) /\
    length rot = 2%nat /\
    Forall2 (fun m f => vec_eq (MAEnv.mat_col m 0) f) rot fwd.
Proof.
  apply (compute_rotation_forward_first_column id_fun id_fun
           [[1; 2; 3]; [0; 1 # 2; -1]]).
  repeat constructor.
Defined.

(** X27.  With a cosine and a sine that satisfy the Pythagorean identity,
    every matrix [compute_rotation_forward] returns for orientations of
    shape [n, 3] is a proper rotation (its rows are orthonormal and its
    determinant is 1), and every forward vector has unit length. *)
Theorem compute_rotation_forward_proper (cos sin : Q -> Q)
  (orn : list (list Q)) :
  (forall x, cos x * cos x + sin x * sin x == 1) ->
  Forall (fun o => length o = 3%nat) orn ->
  exists rot fwd,
    MAEnv.compute_rotation_forward cos sin orn = OK (rot, fwd) /\
    length rot = length orn /\
    Forall2 proper_rotation rot fwd.
Proof.
  intro Hcs. apply compute_rotation_forward_each. intros a b c.
  pose proof (Hcs a) as Ha. pose proof (Hcs b) as Hb. pose proof (Hcs c) as Hc.
  generalize dependent (cos a). generalize dependent (sin a).
  generalize dependent (cos b). generalize dependent (sin b).
  generalize dependent (cos c). generalize dependent (sin c).
  clear. intros s2 c2 Hc s1 c1 Hb s0 c0 Ha.
  unfold proper_rotation, det3, entry, transpose3.
  cbv [MAEnv.mat_mul MAEnv.mat_col dot zip_with map seq length hd nth fold_right].
  split; [|split].
  - repeat constructor; nsatz.
  - nsatz.
  - nsatz.
Qed.

Lemma rational_pythagoras (x : Q) :
  rational_cos x * rational_cos x + rational_sin x * rational_sin x == 1.
Proof.
  unfold rational_cos, rational_sin. field. intro H. nra.
Qed.

Lemma compute_rotation_forward_proper_witness :
  exists rot fwd,
    MAEnv.compute_rotation_forward rational_cos rational_sin
      [[0; 1 # 2; 2]; [1; 1; 1]] = OK (rot, fwd) /\
    length rot = 2%nat /\
    Forall2 proper_rotation rot fwd.
Proof.
  apply (compute_rotation_forward_proper rational_cos rational_sin
           [[0; 1 # 2; 2]; [1; 1; 1]] rational_pythagoras).
  repeat constructor.
Defined.

(** ** The drone options of [begin_reset] *)

Lemma dict_set_same {V} (d : dict V) (k : string) (v : V) :
  dict_get d k = Some v -> dict_set d k v = d.
Proof.
  induction d as [|[k0 v0] d IH]; simpl; [discriminate|].
  destruct (String.eqb k0 k); intro H.
  - injection H as ->. reflexivity.
  - f_equal. apply IH, H.
Qed.


Lemma default_drone_model_keeps (d : dict MAEnv.pyval) :
  has_model d -> MAEnv.default_drone_model d = d.
Proof.
  intros (v & Hv & Ht). unfold MAEnv.default_drone_model.
  rewrite Hv, Ht. apply dict_set_same, Hv.
Qed.


(** X29.  On a sequence of option dicts, [begin_reset] passes on a
    sequence of the same length in which, dict by dict, every key but
    ["drone_model"] is as given, a dict that names a usable model is
    unchanged, and a missing or falsy model has become
    ["acrowing_green"]. *)
Theorem begin_reset_options_sequence (l : list (dict MAEnv.pyval)) :
  exists l',
    MAEnv.begin_reset_drone_options (MAEnv.OptSeq l) = MAEnv.OptSeq l' /\
    length l' = length l /\
    forall i d, nth_error l i = Some d ->
      exists d',
        nth_error l' i = Some d' /\
        (forall k, k <> "drone_model"%string -> dict_get d' k = dict_get d k) /\
        (has_model d -> d' = d) /\
        (~ has_model d ->
         dict_get d' "drone_model" = Some (MAEnv.PStr "acrowing_green")).
Proof.
  exists (map MAEnv.default_drone_model l). split; [reflexivity|].
  split; [apply length_map|].
  intros i d Hd. exists (MAEnv.default_drone_model d).
  split; [now apply map_nth_error|]. split; [|split].
  - intros k Hk. unfold MAEnv.default_drone_model. rewrite dict_get_set.
    destruct (String.eqb "drone_model" k) eqn:E; [|reflexivity].
    apply String.eqb_eq in E. congruence.
  - apply default_drone_model_keeps.
  - intro Hno. unfold MAEnv.default_drone_model.
    rewrite dict_get_set, String.eqb_refl. f_equal.
    destruct (dict_get d "drone_model") as [v|] eqn:Ev; [|reflexivity].
    destruct (MAEnv.truthy v) eqn:Et; [|reflexivity].
    exfalso. apply Hno. exists v. split; assumption.
Qed.
